(** * Task.py: the language-dispatched text-analysis pipeline

    A shallow embedding of [perform_nlp_analysis] (src/Task.py, lines
    62-213) and the properties of its result.

    - Python [str] values are sequences of Unicode code points.
    - The [results] dict is a finite map from its (literal) keys to values.
    - The third-party engines (langdetect, spaCy, NLTK, underthesea) are
      opaque: they are the fields of a record [Engines], and each call
      either returns a value or raises an exception carrying a message.
    - The body of a [try] block is written in a small state-and-exception
      monad over the local [results] dict, so that the state in which an
      [except] handler runs is the one the code has there.
    - Calls to [app.logger] do not influence the returned value and are
      left out. *)

From Stdlib Require Import NArith List String Ascii Bool Lia.
From stdpp Require Import gmap strings list fin_maps.

Local Open Scope N_scope.

(** ** Python strings *)

Module PyStr.

(** A [str] is a list of code points. *)
Abbreviation t := (list N).

(** An ASCII literal of the source. *)
Definition lit (s : string) : t :=
  map N_of_ascii (list_ascii_of_string s).

Definition between (lo hi c : N) : bool := (lo <=? c) && (c <=? hi).

(** [str.isspace] on one code point: the white-space table of CPython. *)
Definition isspace (c : N) : bool :=
  between 9 13 c || between 28 32 c || (c =? 133) || (c =? 160)
  || (c =? 5760) || between 8192 8202 c || (c =? 8232) || (c =? 8233)
  || (c =? 8239) || (c =? 8287) || (c =? 12288).

Fixpoint lstrip (s : t) : t :=
  match s with
  | c :: s' => if isspace c then lstrip s' else s
  | [] => []
  end.

Definition rstrip (s : t) : t := rev (lstrip (rev s)).

(** [s.strip()] *)
Definition strip (s : t) : t := rstrip (lstrip s).

(** Truth value of a string: non-empty. *)
Definition truthy (s : t) : bool :=
  match s with [] => false | _ => true end.

(** The lower-case mapping of one code point.  The table is the one of
    the Unicode character database for Basic Latin, Latin-1 Supplement,
    Latin Extended-A, Latin Extended Additional, the letters O-horn and
    U-horn of Vietnamese, and the Kelvin and Angstrom signs; every other
    code point is returned unchanged.  The two literals this program
    compares a lowered text with, 'google' and 'Việt Nam', consist of
    code points of these blocks, and no code point outside the table has
    a lower-case mapping that contains one of their code points, so both
    comparisons have the value they have in Python on every text.  For a
    text in another cased script (Greek, Cyrillic, ...) the string handed
    to the English tokenizer is approximated. *)
Definition lower_cp (c : N) : t :=
  if between 65 90 c then [c + 32]                          (* A..Z *)
  else if between 192 222 c && negb (c =? 215) then [c + 32] (* À..Þ but × *)
  else if c =? 304 then [105; 775]             (* İ: i, combining dot *)
  else if (between 256 303 c || between 306 311 c || between 330 375 c)
          && N.even c then [c + 1]
  else if (between 313 328 c || between 377 382 c) && N.odd c then [c + 1]
  else if c =? 376 then [255]                                (* Ÿ *)
  else if (c =? 416) || (c =? 431) then [c + 1]              (* Ơ, Ư *)
  else if (between 7680 7829 c || between 7840 7935 c) && N.even c
       then [c + 1]
  else if c =? 7838 then [223]                               (* ẞ *)
  else if c =? 8490 then [107]                               (* K sign *)
  else if c =? 8491 then [229]                               (* Å sign *)
  else [c].

(** [s.lower()] *)
Definition lower (s : t) : t := flat_map lower_cp s.

(** [s.startswith(p)] *)
Fixpoint startswith (p s : t) : bool :=
  match p, s with
  | [], _ => true
  | a :: p', b :: s' => (a =? b) && startswith p' s'
  | _ :: _, [] => false
  end.

(** [s[n:]] *)
Definition slice_from (n : nat) (s : t) : t := skipn n s.

(** [s.split(sep)] for a separator of one code point: the segments
    between the occurrences of [sep], at least one. *)
Fixpoint split_acc (sep : N) (cur : t) (s : t) : list t :=
  match s with
  | [] => [rev cur]
  | c :: s' =>
      if c =? sep then rev cur :: split_acc sep [] s'
      else split_acc sep (c :: cur) s'
  end.

Definition split (sep : N) (s : t) : list t := split_acc sep [] s.

(** [==] on strings *)
Definition eqb (a b : t) : bool := bool_decide (a = b).

End PyStr.

Abbreviation pystr := PyStr.t.

(** The literals of the source. *)
Definition s_unknown : pystr := Eval cbv in PyStr.lit "unknown".
Definition s_unknown_default : pystr :=
  Eval cbv in PyStr.lit "unknown (defaulting to English)".
Definition s_en : pystr := Eval cbv in PyStr.lit "en".
Definition s_vi : pystr := Eval cbv in PyStr.lit "vi".
Definition s_the : pystr := Eval cbv in PyStr.lit "the".
Definition s_english : pystr := Eval cbv in PyStr.lit "english".
Definition s_CARDINAL : pystr := Eval cbv in PyStr.lit "CARDINAL".
Definition s_google : pystr := Eval cbv in PyStr.lit "google".
Definition s_TECH_COMPANY : pystr := Eval cbv in PyStr.lit "TECH_COMPANY".
Definition s_PUNCT : pystr := Eval cbv in PyStr.lit "PUNCT".
Definition s_SYM : pystr := Eval cbv in PyStr.lit "SYM".
Definition s_X : pystr := Eval cbv in PyStr.lit "X".
Definition s_PROPN : pystr := Eval cbv in PyStr.lit "PROPN".
Definition s_NAME : pystr := Eval cbv in PyStr.lit "NAME".
Definition s_P : pystr := Eval cbv in PyStr.lit "P".
Definition s_CH : pystr := Eval cbv in PyStr.lit "CH".
Definition s_F : pystr := Eval cbv in PyStr.lit "F".
Definition s_B_ : pystr := Eval cbv in PyStr.lit "B-".
Definition s_I_ : pystr := Eval cbv in PyStr.lit "I-".
Definition s_COUNTRY_VN : pystr := Eval cbv in PyStr.lit "COUNTRY_VN".
(** 'Việt Nam': V i U+1EC7 t, space, N a m *)
Definition s_Viet_Nam : pystr := [86; 105; 7879; 116; 32; 78; 97; 109].
Definition c_space : N := 32.
Definition c_period : N := 46.
Definition s_English_NLP_error : pystr :=
  Eval cbv in PyStr.lit "English NLP error: ".
Definition s_Vietnamese_NLP_error : pystr :=
  Eval cbv in PyStr.lit "Vietnamese NLP error: ".
Definition s_vn_not_available : pystr :=
  Eval cbv in PyStr.lit "Vietnamese NLP tools (underthesea) not available.".
Definition s_Language_ : pystr := Eval cbv in PyStr.lit "Language '".
Definition s_not_supported : pystr :=
  Eval cbv in PyStr.lit "' is not supported for full NLP analysis.".

Definition s_please_enter : pystr :=
  Eval cbv in PyStr.lit "Please enter some text for analysis.".

(** ** The data model *)

(** [{'text': ..., 'label': ...}] *)
Record entity := Entity { text : pystr; label : pystr }.

(** [{'token': ..., 'pos': ...}] *)
Record pos_entry := PosEntry { token : pystr; pos : pystr }.

(** The values stored in [results]. *)
Inductive value :=
| VStr (s : pystr)
| VInt (n : Z)
| VStrs (l : list pystr)
| VEntities (l : list entity)
| VPosTags (l : list pos_entry).

(** The [results] dict. *)
Abbreviation dict := (gmap string value).

#[global] Instance entity_eq_dec : EqDecision entity.
Proof. solve_decision. Defined.
#[global] Instance pos_entry_eq_dec : EqDecision pos_entry.
Proof. solve_decision. Defined.
#[global] Instance value_eq_dec : EqDecision value.
Proof. solve_decision. Defined.

(** ** The engines *)

(** The outcome of a call into a library: a value, or an exception [e]
    with [str(e)]. *)
Inductive result (A : Type) :=
| Ok (a : A)
| Raise (msg : pystr).
Arguments Ok {A} a.
Arguments Raise {A} msg.

(** A spaCy entity span: [ent.text], [ent.label_]. *)
Record span := Span { ent_text : pystr; label_ : pystr }.

(** A spaCy token: [token.text], [token.pos_], [token.is_space]. *)
Record spacy_token :=
  SpacyToken { tok_text : pystr; pos_ : pystr; is_space : bool }.

(** A spaCy document: iterating it gives its tokens, [doc.ents] its
    entity spans. *)
Record spacy_doc := Doc { doc_tokens : list spacy_token; ents : list span }.

Record Engines := {
  (** whether [underthesea] could be imported *)
  VN_NLP_AVAILABLE : bool;
  (** [langdetect.detect] *)
  detect : pystr -> result pystr;
  (** [spacy.load("en_core_web_sm")], applied to a text *)
  nlp_spacy_en : pystr -> result spacy_doc;
  (** [nltk.tokenize.word_tokenize], [sent_tokenize] *)
  word_tokenize : pystr -> result (list pystr);
  sent_tokenize : pystr -> result (list pystr);
  (** [stopwords.words] *)
  stopwords_words : pystr -> result (list pystr);
  (** [lemmatizer_en.lemmatize] *)
  lemmatize : pystr -> result pystr;
  (** [underthesea.word_tokenize(text, format="text")] *)
  vn_word_tokenize : pystr -> result pystr;
  (** [underthesea.pos_tag]: (token, pos_tag) tuples *)
  vn_pos_tag : pystr -> result (list (pystr * pystr));
  (** [underthesea.ner]: (token, pos_tag, ner_tag) tuples *)
  vn_ner : pystr -> result (list (pystr * pystr * pystr));
  (** [str.isalpha] (a table of the Unicode database) *)
  isalpha : pystr -> bool;
  (** the order in which a Python set of strings is iterated: some
      enumeration of its elements *)
  set_iter : gset pystr -> list pystr;
  set_iter_perm : forall s, set_iter s ≡ₚ elements s;
}.

(** ** Statements that mutate [results] and may raise *)

Module Stmt.

Definition M (A : Type) : Type := dict -> dict * result A.

Definition ret {A} (a : A) : M A := fun r => (r, Ok a).

Definition bind {A B} (m : M A) (k : A -> M B) : M B :=
  fun r =>
    match m r with
    | (r', Ok a) => k a r'
    | (r', Raise e) => (r', Raise e)
    end.

(** a call into a library *)
Definition call {A} (x : result A) : M A := fun r => (r, x).

(** [results[k] = v] *)
Definition store (k : string) (v : value) : M unit :=
  fun r => (<[k := v]> r, Ok tt).

End Stmt.

Declare Scope stmt_scope.
Delimit Scope stmt_scope with stmt.
Notation "x <- c1 ;; c2" := (Stmt.bind c1 (fun x => c2))
  (at level 100, c1 at next level, right associativity) : stmt_scope.
Notation "c1 ;; c2" := (Stmt.bind c1 (fun _ => c2))
  (at level 100, right associativity) : stmt_scope.

(** A list comprehension whose element expression may raise. *)
Fixpoint map_result {A B} (f : A -> result B) (l : list A) : result (list B) :=
  match l with
  | [] => Ok []
  | a :: l' =>
      match f a with
      | Raise e => Raise e
      | Ok b =>
          match map_result f l' with
          | Raise e => Raise e
          | Ok bs => Ok (b :: bs)
          end
      end
  end.

(** [l[:n]] *)
Definition slice_to {A} (n : nat) (l : list A) : list A := firstn n l.

(** ** The English strategy (lines 93-135) *)

(** Lines 120-121: the entity is updated in place. *)
Definition relabel_google (e : entity) : entity :=
  if PyStr.eqb (PyStr.lower (text e)) s_google
  then {| text := text e; label := s_TECH_COMPANY |}
  else e.

(** One round of the loop of lines 117-122. *)
Definition ner_rule_en (modified_entities : list entity) (e : entity)
  : list entity :=
  if PyStr.eqb (label e) s_CARDINAL then modified_entities
  else modified_entities ++ [relabel_google e].

Definition modify_entities_en (raw_entities : list entity) : list entity :=
  fold_left ner_rule_en raw_entities [].

(** [pos in forbidden_pos] *)
Definition forbidden_pos (p : pystr) : bool :=
  bool_decide (p ∈ [s_PUNCT; s_SYM; s_X]).

(** Lines 132-133: the entry is updated in place. *)
Definition relabel_propn (p : pos_entry) : pos_entry :=
  if PyStr.eqb (pos p) s_PROPN
  then {| token := token p; pos := s_NAME |}
  else p.

(** One round of the loop of lines 129-134. *)
Definition pos_rule_en (modified_pos_tags : list pos_entry) (p : pos_entry)
  : list pos_entry :=
  if forbidden_pos (pos p) then modified_pos_tags
  else modified_pos_tags ++ [relabel_propn p].

Definition modify_pos_tags_en (raw_pos_tags : list pos_entry)
  : list pos_entry :=
  fold_left pos_rule_en raw_pos_tags [].

(** [[{'token': token.text, 'pos': token.pos_} for token in doc_spacy
      if not token.is_space]] *)
Definition raw_pos_tags_of (doc : spacy_doc) : list pos_entry :=
  map (fun t => {| token := tok_text t; pos := pos_ t |})
      (filter (fun t => negb (is_space t) = true) (doc_tokens doc)).

(** [[{'text': ent.text, 'label': ent.label_} for ent in doc_spacy.ents]] *)
Definition raw_entities_of (doc : spacy_doc) : list entity :=
  map (fun s => {| text := ent_text s; label := label_ s |}) (ents doc).

(** ** The Vietnamese strategy (lines 151-201) *)

(** Lines 166-169. *)
Definition pos_rule_vi (modified_pos_tags : list pos_entry)
  (tp : pystr * pystr) : list pos_entry :=
  let '(tok, p) := tp in
  if negb (bool_decide (p ∈ [s_P; s_CH; s_F]))
  then modified_pos_tags ++ [{| token := tok; pos := p |}]
  else modified_pos_tags.

Definition modify_pos_tags_vi (pos_tags_raw : list (pystr * pystr))
  : list pos_entry :=
  fold_left pos_rule_vi pos_tags_raw [].

(** The variables of the loop of lines 181-193. *)
Record ner_state := NerState {
  current_entity_text : pystr;
  current_entity_label : pystr;
  modified_entities : list entity;
}.

(** One round of the loop of lines 181-193. *)
Definition ner_round (st : ner_state) (row : pystr * pystr * pystr)
  : ner_state :=
  let '(tok, _, ner_tag) := row in
  if PyStr.startswith s_B_ ner_tag then
    let ents :=
      if PyStr.truthy (current_entity_text st)
      then modified_entities st ++
             [{| text := current_entity_text st;
                 label := current_entity_label st |}]
      else modified_entities st in
    {| current_entity_text := tok;
       current_entity_label := PyStr.slice_from 2 ner_tag;
       modified_entities := ents |}
  else if PyStr.startswith s_I_ ner_tag
          && PyStr.eqb (PyStr.slice_from 2 ner_tag) (current_entity_label st)
  then
    {| current_entity_text := current_entity_text st ++ [c_space] ++ tok;
       current_entity_label := current_entity_label st;
       modified_entities := modified_entities st |}
  else
    let ents :=
      if PyStr.truthy (current_entity_text st)
      then modified_entities st ++
             [{| text := current_entity_text st;
                 label := current_entity_label st |}]
      else modified_entities st in
    {| current_entity_text := [];
       current_entity_label := [];
       modified_entities := ents |}.

(** Lines 177-195: the loop, then the last entity if any. *)
Definition aggregate_entities (ner_raw : list (pystr * pystr * pystr))
  : list entity :=
  let st := fold_left ner_round ner_raw
              {| current_entity_text := [];
                 current_entity_label := [];
                 modified_entities := [] |} in
  if PyStr.truthy (current_entity_text st)
  then modified_entities st ++
         [{| text := current_entity_text st;
             label := current_entity_label st |}]
  else modified_entities st.

(** Lines 199-200: the entity is updated in place. *)
Definition relabel_viet_nam (e : entity) : entity :=
  if PyStr.eqb (PyStr.lower (text e)) s_Viet_Nam
  then {| text := text e; label := s_COUNTRY_VN |}
  else e.

(** Lines 198-200. *)
Definition relabel_entities_vi (l : list entity) : list entity :=
  map relabel_viet_nam l.

(** The outcome of the route [/analyze]: the page rendered from
    [user_input] and [analysis], or an uncaught TypeError. *)
Inductive response :=
| Render (user_input : pystr) (analysis_results : dict)
| TypeError.

Section Strategies.

Context (E : Engines).

Local Open Scope stmt_scope.

(** The body of the [try] of the English branch (lines 93-135). *)
Definition english_body (txt : pystr) : Stmt.M unit :=
  doc_spacy <- Stmt.call (nlp_spacy_en E txt);;
  tokens <- Stmt.call (word_tokenize E (PyStr.lower txt));;
  sentences <- Stmt.call (sent_tokenize E txt);;
  Stmt.store "word_count" (VInt (Z.of_nat (length tokens)));;
  Stmt.store "sentence_count" (VInt (Z.of_nat (length sentences)));;
  let modified_tokens_display := filter (fun t => t ≠ s_the) tokens in
  Stmt.store "first_50_tokens"
    (VStrs (slice_to (Nat.min 50 (length modified_tokens_display))
                     modified_tokens_display));;
  words <- Stmt.call (stopwords_words E s_english);;
  let stop_words : gset pystr := list_to_set words in
  let filtered_tokens :=
    filter (fun t => isalpha E t = true /\ t ∉ stop_words) tokens in
  lemmas <- Stmt.call (map_result (lemmatize E) filtered_tokens);;
  Stmt.store "unique_lemmas"
    (VStrs (slice_to (Nat.min 20 (length lemmas))
                     (set_iter E (list_to_set lemmas))));;
  let raw_entities := raw_entities_of doc_spacy in
  Stmt.store "named_entities" (VEntities (modify_entities_en raw_entities));;
  let raw_pos_tags := raw_pos_tags_of doc_spacy in
  let modified_pos_tags := modify_pos_tags_en raw_pos_tags in
  Stmt.store "pos_tags"
    (VPosTags (slice_to (Nat.min 30 (length modified_pos_tags))
                        modified_pos_tags)).

(** The body of the [try] of the Vietnamese branch (lines 151-201). *)
Definition vietnamese_body (txt : pystr) : Stmt.M unit :=
  segmented <- Stmt.call (vn_word_tokenize E txt);;
  let tokens := PyStr.split c_space segmented in
  Stmt.store "first_50_tokens"
    (VStrs (slice_to (Nat.min 50 (length tokens)) tokens));;
  Stmt.store "word_count" (VInt (Z.of_nat (length tokens)));;
  let sentences := PyStr.split c_period txt in
  Stmt.store "sentence_count"
    (VInt (Z.of_nat (length
       (filter (fun s => PyStr.truthy (PyStr.strip s) = true) sentences))));;
  pos_tags_raw <- Stmt.call (vn_pos_tag E txt);;
  let modified_pos_tags := modify_pos_tags_vi pos_tags_raw in
  Stmt.store "pos_tags"
    (VPosTags (slice_to (Nat.min 30 (length modified_pos_tags))
                        modified_pos_tags));;
  ner_raw <- Stmt.call (vn_ner E txt);;
  let modified_entities := aggregate_entities ner_raw in
  Stmt.store "named_entities" (VEntities (relabel_entities_vi modified_entities)).

(** The local [results] when the function is left, and the value it
    returns: [None] or a dict. *)
Record frame := Frame { results : dict; returned : option dict }.

(** Lines 82-88. *)
Definition placeholders (r : dict) : dict :=
  <["pos_tags" := VPosTags []]>
    (<["named_entities" := VEntities []]>
      (<["unique_lemmas" := VStrs []]>
        (<["first_50_tokens" := VStrs []]>
          (<["sentence_count" := VInt 0]>
            (<["word_count" := VInt 0]> r))))).

(** Lines 71-80: language detection; the effective language and the
    initial [results]. *)
Definition detect_language (txt : pystr) : pystr * dict :=
  match detect E txt with
  | Ok lang => (lang, <["lang" := VStr lang]> (∅ : dict))
  | Raise _ => (s_en, <["lang" := VStr s_unknown_default]> (∅ : dict))
  end.

(** Lines 71-213: the function after the guard on blank input. *)
Definition analysis (txt : pystr) : frame :=
  let '(lang, results) := detect_language txt in
  let results := placeholders results in
  if PyStr.eqb lang s_en then
    match english_body txt results with
    | (results, Ok _) => Frame results (Some results)
    | (results, Raise e) =>
        Frame (<["error_details" := VStr (s_English_NLP_error ++ e)]> results)
              None
    end
  else if PyStr.eqb lang s_vi then
    if negb (VN_NLP_AVAILABLE E) then
      Frame (<["error_details" := VStr s_vn_not_available]> results) None
    else
      match vietnamese_body txt results with
      | (results, Ok _) => Frame results (Some results)
      | (results, Raise e) =>
          Frame (<["error_details" := VStr (s_Vietnamese_NLP_error ++ e)]>
                   results)
                None
      end
  else
    Frame (<["error_details" :=
               VStr (s_Language_ ++ lang ++ s_not_supported)]> results)
          None.

(** Line 67: [not text or not text.strip()] *)
Definition blank (txt : pystr) : bool :=
  negb (PyStr.truthy txt) || negb (PyStr.truthy (PyStr.strip txt)).

(** [perform_nlp_analysis(text)]: [None], or the dict returned. *)
Definition perform_nlp_analysis (txt : pystr) : option dict :=
  if blank txt
  then Some {["lang" := VStr s_unknown]}
  else returned (analysis txt).

(** What the route [/analyze] does with the form text (lines 222-249):
    it renders result.html with a dict, or its membership test
    ['error_details' in analysis_results] raises TypeError because
    [analysis_results] is None. *)
Definition analyze (user_input_text : pystr) : response :=
  if negb (PyStr.truthy (PyStr.strip user_input_text)) then
    Render user_input_text {["error_details" := VStr s_please_enter]}
  else
    match perform_nlp_analysis user_input_text with
    | None => TypeError
    | Some analysis_results =>
        (* both branches of line 239 render the same page *)
        Render user_input_text analysis_results
    end.

End Strategies.

(** ** The entity aggregator as the specification words it

    Section 4.4, item 4: an accumulator (current entity text, current
    entity type) and one transition per kind of tag.  [aggregate_entities]
    above is the code; this second definition is compared with it. *)

Inductive bio_tag :=
| Begin (ty : pystr)     (* a tag prefixed B- *)
| Inside (ty : pystr)    (* a tag prefixed I- *)
| Other.                 (* anything else *)

Definition spec_bio_classify (tag : pystr) : bio_tag :=
  if PyStr.startswith s_B_ tag then Begin (skipn 2 tag)
  else if PyStr.startswith s_I_ tag then Inside (skipn 2 tag)
  else Other.

(** flush the accumulator if non-empty *)
Definition spec_bio_flush (acc : pystr * pystr) (out : list entity)
  : list entity :=
  match fst acc with
  | [] => out
  | _ :: _ => out ++ [{| text := fst acc; label := snd acc |}]
  end.

Definition spec_bio_step (st : (pystr * pystr) * list entity)
  (row : pystr * pystr) : (pystr * pystr) * list entity :=
  let '(acc, out) := st in
  let '(tok, tag) := row in
  match spec_bio_classify tag with
  | Begin ty => ((tok, ty), spec_bio_flush acc out)
  | Inside ty =>
      if decide (ty = snd acc)
      then ((fst acc ++ c_space :: tok, snd acc), out)
      else (([], []), spec_bio_flush acc out)
  | Other => (([], []), spec_bio_flush acc out)
  end.

Definition spec_bio_aggregate (stream : list (pystr * pystr)) : list entity :=
  let '(acc, out) := fold_left spec_bio_step stream (([], []), []) in
  spec_bio_flush acc out.

(** ** The dicts a strategy leaves in [results] when it completes *)

Definition english_results (doc : spacy_doc) (tokens sentences lemmas : list pystr)
  (set_order : gset pystr -> list pystr) (r : dict) : dict :=
  <["pos_tags" :=
      VPosTags (slice_to (Nat.min 30 (length (modify_pos_tags_en (raw_pos_tags_of doc))))
                         (modify_pos_tags_en (raw_pos_tags_of doc)))]>
  (<["named_entities" := VEntities (modify_entities_en (raw_entities_of doc))]>
  (<["unique_lemmas" :=
       VStrs (slice_to (Nat.min 20 (length lemmas))
                       (set_order (list_to_set lemmas)))]>
  (<["first_50_tokens" :=
       VStrs (slice_to (Nat.min 50 (length (filter (fun t => t ≠ s_the) tokens)))
                       (filter (fun t => t ≠ s_the) tokens))]>
  (<["sentence_count" := VInt (Z.of_nat (length sentences))]>
  (<["word_count" := VInt (Z.of_nat (length tokens))]> r))))).

Definition vietnamese_results (txt segmented : pystr)
  (pos_tags_raw : list (pystr * pystr))
  (ner_raw : list (pystr * pystr * pystr)) (r : dict) : dict :=
  <["named_entities" :=
      VEntities (relabel_entities_vi (aggregate_entities ner_raw))]>
  (<["pos_tags" :=
       VPosTags (slice_to (Nat.min 30 (length (modify_pos_tags_vi pos_tags_raw)))
                          (modify_pos_tags_vi pos_tags_raw))]>
  (<["sentence_count" :=
       VInt (Z.of_nat (length
         (filter (fun s => PyStr.truthy (PyStr.strip s) = true)
                 (PyStr.split c_period txt))))]>
  (<["word_count" :=
       VInt (Z.of_nat (length (PyStr.split c_space segmented)))]>
  (<["first_50_tokens" :=
       VStrs (slice_to (Nat.min 50 (length (PyStr.split c_space segmented)))
                       (PyStr.split c_space segmented))]> r)))).

(** The entry of the POS list that shows a spaCy token: its text, and
    its label with PROPN written NAME. *)
Definition shown_pos (t : spacy_token) : pos_entry :=
  {| token := tok_text t;
     pos := if decide (pos_ t = s_PROPN) then s_NAME else pos_ t |}.

(** ** Engines for the examples *)

Module Sample.

(** ASCII letters only; enough for the sample texts. *)
Definition ascii_alpha (s : pystr) : bool :=
  PyStr.truthy s
  && forallb (fun c => PyStr.between 65 90 c || PyStr.between 97 122 c) s.

(** Engines that answer for one text [txt] and raise on any other. *)
Definition engines (available : bool) (txt lang : pystr) (doc : spacy_doc)
  (tokens sentences : list pystr) (segmented : pystr)
  (tags : list (pystr * pystr)) (ner : list (pystr * pystr * pystr))
  : Engines :=
  let on {A} (key : pystr) (a : A) (x : pystr) : result A :=
    if PyStr.eqb x key then Ok a else Raise (PyStr.lit "unexpected input") in
  {| VN_NLP_AVAILABLE := available;
     detect := on txt lang;
     nlp_spacy_en := on txt doc;
     word_tokenize := on (PyStr.lower txt) tokens;
     sent_tokenize := on txt sentences;
     stopwords_words := on s_english [s_the; PyStr.lit "on"; PyStr.lit "a"];
     lemmatize := fun t => Ok t;
     vn_word_tokenize := on txt segmented;
     vn_pos_tag := on txt tags;
     vn_ner := on txt ner;
     isalpha := ascii_alpha;
     set_iter := elements;
     set_iter_perm := fun s => reflexivity (elements s) |}.

Definition no_doc : spacy_doc := {| doc_tokens := []; ents := [] |}.

(** "The Google team hired 3 people." *)
Definition txt_en : pystr :=
  Eval cbv in PyStr.lit "The Google team hired 3 people.".

Definition doc_en : spacy_doc :=
  Eval cbv in
  {| doc_tokens :=
       [ SpacyToken (PyStr.lit "The") (PyStr.lit "DET") false;
         SpacyToken (PyStr.lit "Google") (PyStr.lit "PROPN") false;
         SpacyToken (PyStr.lit "team") (PyStr.lit "NOUN") false;
         SpacyToken (PyStr.lit "hired") (PyStr.lit "VERB") false;
         SpacyToken (PyStr.lit "3") (PyStr.lit "NUM") false;
         SpacyToken (PyStr.lit "people") (PyStr.lit "NOUN") false;
         SpacyToken (PyStr.lit ".") (PyStr.lit "PUNCT") false ];
     ents := [ Span (PyStr.lit "Google") (PyStr.lit "ORG");
               Span (PyStr.lit "3") (PyStr.lit "CARDINAL") ] |}.

Definition tokens_en : list pystr :=
  Eval cbv in
  map PyStr.lit ["the"; "google"; "team"; "hired"; "3"; "people"; "."]%string.

Definition english : Engines :=
  engines true txt_en s_en doc_en tokens_en [txt_en] [] [] [].

(** The dict returned for this text. *)
Definition english_dict : dict :=
  Eval vm_compute in
  match perform_nlp_analysis english txt_en with
  | Some r => r
  | None => ∅
  end.

(** "Bonjour le monde", detected as French. *)
Definition txt_fr : pystr := Eval cbv in PyStr.lit "Bonjour le monde".
Definition s_fr : pystr := Eval cbv in PyStr.lit "fr".

Definition french : Engines :=
  engines true txt_fr s_fr no_doc [] [] [] [] [].

(** "Hà Nội đẹp" *)
Definition s_Ha : pystr := [72; 224].
Definition s_Noi : pystr := [78; 7897; 105].
Definition s_dep : pystr := [273; 7865; 112].
Definition txt_hanoi : pystr := s_Ha ++ [32] ++ s_Noi ++ [32] ++ s_dep.
Definition s_Np : pystr := Eval cbv in PyStr.lit "Np".
Definition s_A : pystr := Eval cbv in PyStr.lit "A".
Definition s_B_LOC : pystr := Eval cbv in PyStr.lit "B-LOC".
Definition s_I_LOC : pystr := Eval cbv in PyStr.lit "I-LOC".
Definition s_O : pystr := Eval cbv in PyStr.lit "O".
Definition s_LOC : pystr := Eval cbv in PyStr.lit "LOC".

Definition hanoi : Engines :=
  engines true txt_hanoi s_vi no_doc [] []
    ([72; 224; 95] ++ s_Noi ++ [32] ++ s_dep)      (* Hà_Nội đẹp *)
    [(s_Ha ++ [32] ++ s_Noi, s_Np); (s_dep, s_A)]
    [(s_Ha, s_Np, s_B_LOC); (s_Noi, s_Np, s_I_LOC); (s_dep, s_A, s_O)].

(** The dict returned for this text. *)
Definition hanoi_dict : dict :=
  Eval vm_compute in
  match perform_nlp_analysis hanoi txt_hanoi with
  | Some r => r
  | None => ∅
  end.

(** "Việt Nam", recognised as one location. *)
Definition vietnam : Engines :=
  engines true s_Viet_Nam s_vi no_doc [] []
    [86; 105; 7879; 116; 95; 78; 97; 109]          (* Việt_Nam *)
    [(s_Viet_Nam, s_Np)]
    [(s_Viet_Nam, s_Np, s_B_LOC)].

(** The dict returned for this text. *)
Definition vietnam_dict : dict :=
  Eval vm_compute in
  match perform_nlp_analysis vietnam s_Viet_Nam with
  | Some r => r
  | None => ∅
  end.

(** A text the English sample engines do not know: detection raises,
    so does spaCy. *)
Definition txt_hello : pystr := Eval cbv in PyStr.lit "Hello".

End Sample.

(** ** Auxiliary notions for the statements below *)

(** The number of occurrences of a code point in a string. *)
Definition count_cp (c : N) (s : pystr) : nat :=
  length (filter (fun x => x = c) s).

(** [sep.join(l)] for a separator of one code point. *)
Definition join (sep : N) (l : list pystr) : pystr :=
  match l with
  | [] => []
  | s :: l' => s ++ flat_map (fun t => sep :: t) l'
  end.

(** The state in which the loop of lines 181-193 starts. *)
Definition ner_init : ner_state :=
  {| current_entity_text := [];
     current_entity_label := [];
     modified_entities := [] |}.

(** Lines 194-195: the last entity, if any, is added. *)
Definition ner_finish (st : ner_state) : list entity :=
  if PyStr.truthy (current_entity_text st)
  then modified_entities st ++
         [{| text := current_entity_text st;
             label := current_entity_label st |}]
  else modified_entities st.

(** A state of the loop with entities put in front of its list. *)
Definition prepend_entities (pre : list entity) (st : ner_state) : ner_state :=
  {| current_entity_text := current_entity_text st;
     current_entity_label := current_entity_label st;
     modified_entities := pre ++ modified_entities st |}.

(** The rows of a stream that begin an entity of type [ty]. *)
Definition begins (ty : pystr) (row : pystr * pystr * pystr) : Prop :=
  PyStr.startswith s_B_ (snd row) = true /\ ty = skipn 2 (snd row).

(** * Properties *)

(** ** Strings *)

Lemma lstrip_all_space (s : pystr) :
  forallb PyStr.isspace s = true -> PyStr.lstrip s = [].
Proof.
  induction s as [|c s IH]; simpl; [reflexivity|].
  intros H. apply andb_true_iff in H as [Hc Hs].
  rewrite Hc. auto.
Qed.

Lemma strip_all_space (s : pystr) :
  forallb PyStr.isspace s = true -> PyStr.strip s = [].
Proof.
  intros H. unfold PyStr.strip. rewrite (lstrip_all_space s H). reflexivity.
Qed.

Lemma blank_all_space (s : pystr) :
  forallb PyStr.isspace s = true -> blank s = true.
Proof.
  intros H. unfold blank. rewrite (strip_all_space s H). simpl.
  apply orb_true_r.
Qed.

Ltac to_arith :=
  repeat match goal with
    | H : (_ && _) = true |- _ => apply andb_true_iff in H as [? ?]
    | H : (_ || _) = true |- _ => apply orb_true_iff in H as [? | ?]
    | H : negb _ = true |- _ => apply negb_true_iff in H
    | H : (_ <=? _) = true |- _ => apply N.leb_le in H
    | H : (_ =? _) = true |- _ => apply N.eqb_eq in H
    | H : (_ =? _) = false |- _ => apply N.eqb_neq in H
    end.

(** No code point lowers to a sequence that contains a capital ASCII
    letter. *)
Lemma lower_cp_no_capital (c x : N) :
  x ∈ PyStr.lower_cp c -> PyStr.between 65 90 x = false.
Proof.
  unfold PyStr.lower_cp.
  repeat match goal with
    | |- context [if ?b then _ else _] => destruct b eqn:?
    end;
  unfold PyStr.between in *; intros Hx;
  repeat (apply elem_of_cons in Hx as [-> | Hx]);
  try (apply elem_of_nil in Hx; contradiction);
  to_arith; subst;
  try reflexivity;
  try (apply andb_false_iff;
       destruct (N.leb_spec 65 (c + 32)); destruct (N.leb_spec (c + 32) 90);
       auto; lia);
  try (apply andb_false_iff;
       destruct (N.leb_spec 65 (c + 1)); destruct (N.leb_spec (c + 1) 90);
       auto; lia).
  assumption.
Qed.

Lemma lower_no_capital (s : pystr) (x : N) :
  x ∈ PyStr.lower s -> PyStr.between 65 90 x = false.
Proof.
  unfold PyStr.lower. rewrite list_elem_of_In, in_flat_map.
  intros (c & _ & Hx). apply (lower_cp_no_capital c).
  now apply list_elem_of_In.
Qed.

(** A lowered text is never 'Việt Nam'. *)
Lemma lower_ne_Viet_Nam (s : pystr) : PyStr.lower s ≠ s_Viet_Nam.
Proof.
  intros H.
  assert (Hc : PyStr.between 65 90 86 = false).
  { apply (lower_no_capital s). rewrite H. unfold s_Viet_Nam. left. }
  discriminate Hc.
Qed.

(** ** Slices *)

Lemma slice_to_min {A} (n : nat) (l : list A) :
  slice_to (Nat.min n (length l)) l = firstn n l.
Proof.
  unfold slice_to. destruct (Nat.le_gt_cases n (length l)) as [Hle | Hgt].
  - now rewrite Nat.min_l.
  - rewrite Nat.min_r by lia. rewrite firstn_all.
    symmetry. apply firstn_all2. lia.
Qed.

Lemma length_slice_to {A} (n m : nat) (l : list A) :
  (length (slice_to (Nat.min n m) l) <= n)%nat.
Proof. unfold slice_to. rewrite length_firstn. lia. Qed.

Lemma elem_of_firstn {A} (n : nat) (l : list A) (x : A) :
  x ∈ firstn n l -> x ∈ l.
Proof.
  rewrite !list_elem_of_In. revert l.
  induction n as [|n IH]; intros [|a l]; simpl; try tauto.
  intros [-> | H]; auto.
Qed.

(** ** The loops of the English strategy *)

Lemma fold_ner_rule_en (l acc : list entity) :
  fold_left ner_rule_en l acc =
  acc ++ map relabel_google (filter (fun e => label e ≠ s_CARDINAL) l).
Proof.
  revert acc. induction l as [|e l IH]; intros acc; simpl.
  - now rewrite app_nil_r.
  - rewrite IH. unfold ner_rule_en, PyStr.eqb.
    rewrite filter_cons. case_bool_decide as Hc.
    + rewrite decide_False by (intros Hn; contradiction). reflexivity.
    + rewrite decide_True by assumption. simpl.
      now rewrite <- app_assoc.
Qed.

Lemma modify_entities_en_eq (raw : list entity) :
  modify_entities_en raw =
  map relabel_google (filter (fun e => label e ≠ s_CARDINAL) raw).
Proof. unfold modify_entities_en. now rewrite fold_ner_rule_en. Qed.

Lemma relabel_google_text (e : entity) : text (relabel_google e) = text e.
Proof. unfold relabel_google. now destruct (PyStr.eqb _ _). Qed.

Lemma relabel_google_label (e : entity) :
  label (relabel_google e) =
  if decide (PyStr.lower (text e) = s_google) then s_TECH_COMPANY else label e.
Proof.
  unfold relabel_google, PyStr.eqb.
  case_bool_decide; [rewrite decide_True | rewrite decide_False]; auto.
Qed.

Lemma fold_pos_rule_en (l acc : list pos_entry) :
  fold_left pos_rule_en l acc =
  acc ++ map relabel_propn
           (filter (fun p => pos p ∉ [s_PUNCT; s_SYM; s_X]) l).
Proof.
  revert acc. induction l as [|p l IH]; intros acc; simpl.
  - now rewrite app_nil_r.
  - rewrite IH. unfold pos_rule_en, forbidden_pos.
    rewrite filter_cons. case_bool_decide as Hc.
    + rewrite decide_False by (intros Hn; contradiction). reflexivity.
    + rewrite decide_True by assumption. simpl.
      now rewrite <- app_assoc.
Qed.

Lemma modify_pos_tags_en_eq (raw : list pos_entry) :
  modify_pos_tags_en raw =
  map relabel_propn (filter (fun p => pos p ∉ [s_PUNCT; s_SYM; s_X]) raw).
Proof. unfold modify_pos_tags_en. now rewrite fold_pos_rule_en. Qed.

Lemma relabel_propn_token (p : pos_entry) : token (relabel_propn p) = token p.
Proof. unfold relabel_propn. now destruct (PyStr.eqb _ _). Qed.

Lemma relabel_propn_pos (p : pos_entry) :
  pos (relabel_propn p) = if decide (pos p = s_PROPN) then s_NAME else pos p.
Proof.
  unfold relabel_propn, PyStr.eqb.
  case_bool_decide; [rewrite decide_True | rewrite decide_False]; auto.
Qed.

(** ** The loops of the Vietnamese strategy *)

Lemma fold_pos_rule_vi (l : list (pystr * pystr)) (acc : list pos_entry) :
  fold_left pos_rule_vi l acc =
  acc ++ map (fun tp => {| token := fst tp; pos := snd tp |})
           (filter (fun tp => snd tp ∉ [s_P; s_CH; s_F]) l).
Proof.
  revert acc. induction l as [|[tok p] l IH]; intros acc; simpl.
  - now rewrite app_nil_r.
  - rewrite IH. rewrite filter_cons. simpl. case_bool_decide as Hc; simpl.
    + rewrite decide_False by (intros Hn; contradiction). reflexivity.
    + rewrite decide_True by assumption. simpl.
      now rewrite <- app_assoc.
Qed.

(** Nothing is ever relabelled to COUNTRY_VN: the lowered text is
    compared with a literal that has capital letters. *)
Lemma relabel_viet_nam_id (e : entity) : relabel_viet_nam e = e.
Proof.
  unfold relabel_viet_nam, PyStr.eqb.
  rewrite bool_decide_eq_false_2; [reflexivity|]. apply lower_ne_Viet_Nam.
Qed.

Lemma relabel_entities_vi_id (l : list entity) : relabel_entities_vi l = l.
Proof.
  unfold relabel_entities_vi. induction l as [|e l IH]; simpl; [reflexivity|].
  now rewrite relabel_viet_nam_id, IH.
Qed.

(** The code's loop and the specification's transition agree on every
    state and row. *)
Lemma ner_round_spec_step (st : ner_state) (tok p tag : pystr) :
  let st' := ner_round st (tok, p, tag) in
  spec_bio_step
    ((current_entity_text st, current_entity_label st), modified_entities st)
    (tok, tag) =
  ((current_entity_text st', current_entity_label st'), modified_entities st').
Proof.
  destruct st as [t l out]. cbv zeta.
  unfold ner_round, spec_bio_step, spec_bio_classify, spec_bio_flush,
    PyStr.slice_from, PyStr.eqb.
  cbn [current_entity_text current_entity_label modified_entities fst snd].
  destruct (PyStr.startswith s_B_ tag) eqn:HB.
  { destruct t; reflexivity. }
  destruct (PyStr.startswith s_I_ tag) eqn:HI;
    cbn [andb current_entity_text current_entity_label modified_entities].
  - case_bool_decide as Hl.
    + rewrite decide_True by assumption. reflexivity.
    + rewrite decide_False by assumption. destruct t; reflexivity.
  - destruct t; reflexivity.
Qed.

Lemma fold_ner_round_spec (l : list (pystr * pystr * pystr)) (st : ner_state) :
  let st' := fold_left ner_round l st in
  fold_left spec_bio_step (map (fun row => (fst (fst row), snd row)) l)
    ((current_entity_text st, current_entity_label st), modified_entities st) =
  ((current_entity_text st', current_entity_label st'), modified_entities st').
Proof.
  revert st. induction l as [|[[tok p] tag] l IH]; intros st;
    cbv zeta; cbn [fold_left map fst snd].
  - reflexivity.
  - pose proof (ner_round_spec_step st tok p tag) as Hs. cbv zeta in Hs.
    rewrite Hs. apply IH.
Qed.

Lemma aggregate_entities_spec (ner_raw : list (pystr * pystr * pystr)) :
  aggregate_entities ner_raw =
  spec_bio_aggregate (map (fun row => (fst (fst row), snd row)) ner_raw).
Proof.
  unfold aggregate_entities, spec_bio_aggregate.
  pose proof (fold_ner_round_spec ner_raw
                {| current_entity_text := []; current_entity_label := [];
                   modified_entities := [] |}) as H.
  cbv zeta in H. cbn [current_entity_text current_entity_label
                      modified_entities] in H.
  rewrite H. unfold spec_bio_flush. cbn [fst snd].
  destruct (current_entity_text _); reflexivity.
Qed.

(** ** What a strategy leaves behind *)

Section Pipeline.

Context (E : Engines).

Lemma english_body_ok (txt : pystr) (r0 r1 : dict) (u : unit) :
  english_body E txt r0 = (r1, Ok u) ->
  exists doc toks sents words lems,
    nlp_spacy_en E txt = Ok doc /\
    word_tokenize E (PyStr.lower txt) = Ok toks /\
    sent_tokenize E txt = Ok sents /\
    stopwords_words E s_english = Ok words /\
    map_result (lemmatize E)
      (filter (fun t => isalpha E t = true /\ t ∉ (list_to_set words : gset pystr))
              toks) = Ok lems /\
    r1 = english_results doc toks sents lems (set_iter E) r0.
Proof.
  unfold english_body, Stmt.bind, Stmt.call, Stmt.store, Stmt.ret.
  destruct (nlp_spacy_en E txt) as [doc|]; [|discriminate].
  destruct (word_tokenize E (PyStr.lower txt)) as [toks|]; [|discriminate].
  destruct (sent_tokenize E txt) as [sents|]; [|discriminate].
  destruct (stopwords_words E s_english) as [words|]; [|discriminate].
  destruct (map_result _ _) as [lems|] eqn:Hl; [|discriminate].
  intros H. injection H as <-.
  exists doc, toks, sents, words, lems. repeat split; assumption.
Qed.

Lemma vietnamese_body_ok (txt : pystr) (r0 r1 : dict) (u : unit) :
  vietnamese_body E txt r0 = (r1, Ok u) ->
  exists segmented tags ner,
    vn_word_tokenize E txt = Ok segmented /\
    vn_pos_tag E txt = Ok tags /\
    vn_ner E txt = Ok ner /\
    r1 = vietnamese_results txt segmented tags ner r0.
Proof.
  unfold vietnamese_body, Stmt.bind, Stmt.call, Stmt.store, Stmt.ret.
  destruct (vn_word_tokenize E txt) as [seg|]; [|discriminate].
  destruct (vn_pos_tag E txt) as [tags|]; [|discriminate].
  destruct (vn_ner E txt) as [ner|]; [|discriminate].
  intros H. injection H as <-.
  exists seg, tags, ner. repeat split.
Qed.

(** A strategy never writes the key 'error_details'. *)
Lemma english_body_error_details (txt : pystr) (r0 : dict) :
  fst (english_body E txt r0) !! "error_details" = r0 !! "error_details".
Proof.
  unfold english_body, Stmt.bind, Stmt.call, Stmt.store, Stmt.ret.
  destruct (nlp_spacy_en E txt); [|reflexivity].
  destruct (word_tokenize E (PyStr.lower txt)); [|reflexivity].
  destruct (sent_tokenize E txt); [|reflexivity].
  destruct (stopwords_words E s_english);
    [|cbn [fst]; now rewrite !lookup_insert_ne by discriminate].
  destruct (map_result _ _);
    cbn [fst]; now rewrite !lookup_insert_ne by discriminate.
Qed.

Lemma vietnamese_body_error_details (txt : pystr) (r0 : dict) :
  fst (vietnamese_body E txt r0) !! "error_details" = r0 !! "error_details".
Proof.
  unfold vietnamese_body, Stmt.bind, Stmt.call, Stmt.store, Stmt.ret.
  destruct (vn_word_tokenize E txt); [|reflexivity].
  destruct (vn_pos_tag E txt);
    [|cbn [fst]; now rewrite !lookup_insert_ne by discriminate].
  destruct (vn_ner E txt);
    cbn [fst]; now rewrite !lookup_insert_ne by discriminate.
Qed.

Lemma detect_language_error_details (txt : pystr) :
  placeholders (snd (detect_language E txt)) !! "error_details" = None.
Proof.
  unfold detect_language, placeholders.
  destruct (detect E txt); cbn [snd];
    rewrite !lookup_insert_ne by discriminate; apply lookup_empty.
Qed.

(** The two ways in which [analysis] returns a dict. *)
Lemma analysis_returned (txt : pystr) (r : dict) :
  returned (analysis E txt) = Some r ->
  let r0 := placeholders (snd (detect_language E txt)) in
  (fst (detect_language E txt) = s_en /\
   exists u, english_body E txt r0 = (r, Ok u)) \/
  (fst (detect_language E txt) = s_vi /\ VN_NLP_AVAILABLE E = true /\
   exists u, vietnamese_body E txt r0 = (r, Ok u)).
Proof.
  unfold analysis. destruct (detect_language E txt) as [lang r0]. cbn [fst snd].
  unfold PyStr.eqb. case_bool_decide as Hen.
  - destruct (english_body E txt (placeholders r0)) as [r1 [u|e]] eqn:Hb;
      cbn [returned]; [|discriminate].
    intros [= <-]. left. eauto.
  - case_bool_decide as Hvi; [|discriminate].
    destruct (VN_NLP_AVAILABLE E); cbn [negb]; [|discriminate].
    destruct (vietnamese_body E txt (placeholders r0)) as [r1 [u|e]] eqn:Hb;
      cbn [returned]; [|discriminate].
    intros [= <-]. right. eauto.
Qed.

(** The dict returned for a text that is not blank. *)
Lemma perform_nlp_analysis_returned (txt : pystr) (r : dict) :
  blank txt = false ->
  perform_nlp_analysis E txt = Some r ->
  let r0 := placeholders (snd (detect_language E txt)) in
  (fst (detect_language E txt) = s_en /\
   exists doc toks sents words lems,
     nlp_spacy_en E txt = Ok doc /\
     word_tokenize E (PyStr.lower txt) = Ok toks /\
     sent_tokenize E txt = Ok sents /\
     stopwords_words E s_english = Ok words /\
     map_result (lemmatize E)
       (filter (fun t => isalpha E t = true /\ t ∉ (list_to_set words : gset pystr))
               toks) = Ok lems /\
     r = english_results doc toks sents lems (set_iter E) r0) \/
  (fst (detect_language E txt) = s_vi /\ VN_NLP_AVAILABLE E = true /\
   exists segmented tags ner,
     vn_word_tokenize E txt = Ok segmented /\
     vn_pos_tag E txt = Ok tags /\
     vn_ner E txt = Ok ner /\
     r = vietnamese_results txt segmented tags ner r0).
Proof.
  intros Hb. unfold perform_nlp_analysis. rewrite Hb. intros H.
  apply analysis_returned in H. cbv zeta in H.
  destruct H as [[Hl [u Hu]] | (Hl & Hv & u & Hu)].
  - left. split; [assumption|]. now apply english_body_ok in Hu.
  - right. split; [assumption|]. split; [assumption|].
    now apply vietnamese_body_ok in Hu.
Qed.

End Pipeline.

(** ** Reading the returned dict *)

Ltac lookup_dict :=
  unfold english_results, vietnamese_results, placeholders;
  repeat first [ rewrite lookup_insert_eq
               | rewrite lookup_insert_ne by discriminate ].

Lemma detected_en_not_vi (E : Engines) (txt : pystr) :
  fst (detect_language E txt) = s_en -> fst (detect_language E txt) ≠ s_vi.
Proof. intros ->. discriminate. Qed.

(** The dict of a completed English analysis. *)
Lemma english_returned (E : Engines) (txt : pystr) (r : dict) :
  blank txt = false ->
  fst (detect_language E txt) = s_en ->
  perform_nlp_analysis E txt = Some r ->
  exists doc toks sents lems,
    nlp_spacy_en E txt = Ok doc /\
    word_tokenize E (PyStr.lower txt) = Ok toks /\
    sent_tokenize E txt = Ok sents /\
    r = english_results doc toks sents lems (set_iter E)
          (placeholders (snd (detect_language E txt))).
Proof.
  intros Hb Hen Hr.
  destruct (perform_nlp_analysis_returned E txt r Hb Hr)
    as [(_ & doc & toks & sents & words & lems & Hd & Ht & Hs & _ & _ & ->)
       | (Hvi & _)].
  - exists doc, toks, sents, lems. auto.
  - exfalso. now apply (detected_en_not_vi E txt).
Qed.

Lemma modify_pos_tags_en_tokens (doc : spacy_doc) :
  modify_pos_tags_en (raw_pos_tags_of doc) =
  map shown_pos
    (filter (fun t => is_space t = false /\ pos_ t ∉ [s_PUNCT; s_SYM; s_X])
            (doc_tokens doc)).
Proof.
  rewrite modify_pos_tags_en_eq. unfold raw_pos_tags_of.
  induction (doc_tokens doc) as [|t l IH]; [reflexivity|].
  rewrite !filter_cons. destruct (is_space t) eqn:Hs; cbn [negb].
  - rewrite decide_False by discriminate.
    rewrite decide_False by (intros [? _]; discriminate). exact IH.
  - rewrite decide_True by reflexivity. cbn [map]. rewrite filter_cons.
    cbn [pos]. destruct (decide (pos_ t ∉ [s_PUNCT; s_SYM; s_X])) as [Hp|Hp].
    + rewrite decide_True by auto. cbn [map]. rewrite IH. f_equal.
      unfold relabel_propn, shown_pos, PyStr.eqb. cbn [pos token].
      case_bool_decide; [rewrite decide_True | rewrite decide_False]; auto.
    + rewrite decide_False by (intros [_ ?]; contradiction). exact IH.
Qed.

Lemma count_the (toks : list pystr) :
  length toks =
  (length (filter (fun t => t = s_the) toks)
   + length (filter (fun t => t ≠ s_the) toks))%nat.
Proof.
  induction toks as [|t l IH]; [reflexivity|].
  rewrite !filter_cons. cbn [length].
  destruct (decide (t = s_the)) as [-> | Hne].
  - rewrite decide_False by (intros Hn; now apply Hn). cbn [length]. lia.
  - rewrite decide_True by assumption. cbn [length]. lia.
Qed.

(** ** The sample engines, run *)

Lemma sample_english_returns :
  perform_nlp_analysis Sample.english Sample.txt_en = Some Sample.english_dict.
Proof. vm_cast_no_check (eq_refl (Some Sample.english_dict)). Defined.

Lemma sample_english_lang :
  fst (detect_language Sample.english Sample.txt_en) = s_en.
Proof. reflexivity. Qed.

Lemma sample_hanoi_returns :
  perform_nlp_analysis Sample.hanoi Sample.txt_hanoi = Some Sample.hanoi_dict.
Proof. vm_cast_no_check (eq_refl (Some Sample.hanoi_dict)). Defined.

(** ** The guard on blank input *)

(** C5: for every input that is empty or consists of white space only,
    [perform_nlp_analysis] returns the dict whose only key is 'lang',
    with the value "unknown": no 'error_details' and none of the analytic
    fields are present. *)
Theorem blank_input_only_language (E : Engines) (txt : pystr) :
  forallb PyStr.isspace txt = true ->
  exists r,
    perform_nlp_analysis E txt = Some r /\
    r = {["lang" := VStr s_unknown]} /\
    forall k, k ≠ "lang" -> r !! k = None.
Proof.
  intros H. unfold perform_nlp_analysis. rewrite (blank_all_space txt H).
  eexists. split; [reflexivity|]. split; [reflexivity|].
  intros k Hk. apply lookup_singleton_ne. congruence.
Qed.

Lemma blank_input_only_language_witness :
  exists r,
    perform_nlp_analysis Sample.french [32; 9; 10] = Some r /\
    r = {["lang" := VStr s_unknown]} /\
    forall k, k ≠ "lang" -> r !! k = None.
Proof.
  apply (blank_input_only_language Sample.french [32; 9; 10]).
  reflexivity.
Defined.

(** ** Failures *)

Section Failures.

Context (E : Engines).

(** An unsupported language: 'error_details' is written to the local
    [results], and None is returned. *)
Lemma unsupported_language (txt lang : pystr) :
  detect E txt = Ok lang -> lang ≠ s_en -> lang ≠ s_vi ->
  analysis E txt =
  {| results :=
       <["error_details" := VStr (s_Language_ ++ lang ++ s_not_supported)]>
         (placeholders (<["lang" := VStr lang]> ∅));
     returned := None |}.
Proof.
  intros Hd Hen Hvi. unfold analysis, detect_language. rewrite Hd.
  unfold PyStr.eqb. now rewrite !bool_decide_eq_false_2 by assumption.
Qed.

(** The Vietnamese tools are missing. *)
Lemma toolset_unavailable (txt : pystr) :
  fst (detect_language E txt) = s_vi -> VN_NLP_AVAILABLE E = false ->
  analysis E txt =
  {| results :=
       <["error_details" := VStr s_vn_not_available]>
         (placeholders (snd (detect_language E txt)));
     returned := None |}.
Proof.
  intros Hl Hv. unfold analysis.
  destruct (detect_language E txt) as [lang r0]. cbn [fst snd] in *. subst lang.
  unfold PyStr.eqb. rewrite bool_decide_eq_false_2 by discriminate.
  rewrite bool_decide_eq_true_2 by reflexivity. now rewrite Hv.
Qed.

(** An exception in the English strategy. *)
Lemma english_exception (txt : pystr) (r1 : dict) (e : pystr) :
  fst (detect_language E txt) = s_en ->
  english_body E txt (placeholders (snd (detect_language E txt))) =
    (r1, Raise e) ->
  analysis E txt =
  {| results := <["error_details" := VStr (s_English_NLP_error ++ e)]> r1;
     returned := None |}.
Proof.
  intros Hl Hb. unfold analysis.
  destruct (detect_language E txt) as [lang r0]. cbn [fst snd] in *. subst lang.
  unfold PyStr.eqb. rewrite bool_decide_eq_true_2 by reflexivity.
  now rewrite Hb.
Qed.

(** An exception in the Vietnamese strategy. *)
Lemma vietnamese_exception (txt : pystr) (r1 : dict) (e : pystr) :
  fst (detect_language E txt) = s_vi -> VN_NLP_AVAILABLE E = true ->
  vietnamese_body E txt (placeholders (snd (detect_language E txt))) =
    (r1, Raise e) ->
  analysis E txt =
  {| results := <["error_details" := VStr (s_Vietnamese_NLP_error ++ e)]> r1;
     returned := None |}.
Proof.
  intros Hl Hv Hb. unfold analysis.
  destruct (detect_language E txt) as [lang r0]. cbn [fst snd] in *. subst lang.
  unfold PyStr.eqb. rewrite bool_decide_eq_false_2 by discriminate.
  rewrite bool_decide_eq_true_2 by reflexivity. rewrite Hv. cbn [negb].
  now rewrite Hb.
Qed.

(** [analysis] returns None exactly when it has written 'error_details'
    to its local [results]. *)
Lemma returned_None_iff (txt : pystr) :
  returned (analysis E txt) = None <->
  is_Some (results (analysis E txt) !! "error_details").
Proof.
  unfold analysis.
  pose proof (detect_language_error_details E txt) as Hp.
  destruct (detect_language E txt) as [lang r0]. cbn [snd] in Hp.
  unfold PyStr.eqb. case_bool_decide as Hen.
  - pose proof (english_body_error_details E txt (placeholders r0)) as Hq.
    destruct (english_body E txt (placeholders r0)) as [r1 [u|e]];
      cbn [fst] in Hq; cbn [returned results].
    + rewrite Hq, Hp. split; [discriminate | intros [? ?]; discriminate].
    + rewrite lookup_insert_eq. split; eauto.
  - case_bool_decide as Hvi.
    + destruct (VN_NLP_AVAILABLE E); cbn [negb returned results].
      * pose proof (vietnamese_body_error_details E txt (placeholders r0))
          as Hq.
        destruct (vietnamese_body E txt (placeholders r0)) as [r1 [u|e]];
          cbn [fst] in Hq; cbn [returned results].
        -- rewrite Hq, Hp. split; [discriminate | intros [? ?]; discriminate].
        -- rewrite lookup_insert_eq. split; eauto.
      * rewrite lookup_insert_eq. split; eauto.
    + cbn [returned results]. rewrite lookup_insert_eq. split; eauto.
Qed.

(** The dict returned is the local [results]. *)
Lemma returned_is_results (txt : pystr) (r : dict) :
  returned (analysis E txt) = Some r -> results (analysis E txt) = r.
Proof.
  unfold analysis. destruct (detect_language E txt) as [lang r0].
  destruct (PyStr.eqb lang s_en).
  - destruct (english_body E txt (placeholders r0)) as [r1 [u|e]];
      cbn [returned results]; congruence.
  - destruct (PyStr.eqb lang s_vi); [|discriminate].
    destruct (VN_NLP_AVAILABLE E); cbn [negb]; [|discriminate].
    destruct (vietnamese_body E txt (placeholders r0)) as [r1 [u|e]];
      cbn [returned results]; congruence.
Qed.

(** The four failure branches return None. *)
Lemma failure_branches (txt : pystr) :
  let lang := fst (detect_language E txt) in
  let r0 := placeholders (snd (detect_language E txt)) in
  (lang ≠ s_en /\ lang ≠ s_vi) \/
  (lang = s_vi /\ VN_NLP_AVAILABLE E = false) \/
  (lang = s_en /\ exists r1 e, english_body E txt r0 = (r1, Raise e)) \/
  (lang = s_vi /\ VN_NLP_AVAILABLE E = true /\
   exists r1 e, vietnamese_body E txt r0 = (r1, Raise e)) ->
  returned (analysis E txt) = None.
Proof.
  cbv zeta.
  intros [[Hen Hvi] | [[Hvi Hv] | [(Hen & r1 & e & Hb) | (Hvi & Hv & r1 & e & Hb)]]].
  - unfold analysis. destruct (detect_language E txt) as [lang r0].
    cbn [fst] in *. unfold PyStr.eqb.
    now rewrite !bool_decide_eq_false_2 by assumption.
  - now rewrite toolset_unavailable.
  - now rewrite (english_exception txt r1 e).
  - now rewrite (vietnamese_exception txt r1 e).
Qed.

Lemma returned_no_error_details (txt : pystr) (r : dict) :
  perform_nlp_analysis E txt = Some r -> r !! "error_details" = None.
Proof.
  unfold perform_nlp_analysis. destruct (blank txt).
  - intros [= <-]. apply lookup_singleton_ne. discriminate.
  - intros Hr.
    destruct (r !! "error_details") as [v|] eqn:Hv; [|reflexivity].
    assert (Hn : returned (analysis E txt) = None).
    { apply returned_None_iff.
      rewrite (returned_is_results txt r Hr), Hv. eauto. }
    congruence.
Qed.

End Failures.

(** C3: a dict returned by [perform_nlp_analysis] never has the key
    'error_details'.  For a text that is not blank, each failure branch
    (unsupported language, Vietnamese tools unavailable, exception in the
    English or in the Vietnamese strategy) returns None, and None is
    returned exactly when 'error_details' has been written to the local
    [results]: the caller receives None and not the dict that holds the
    message. *)
Theorem returned_dict_has_no_error_details (E : Engines) (txt : pystr) :
  (forall r, perform_nlp_analysis E txt = Some r ->
             r !! "error_details" = None) /\
  (blank txt = false ->
   (perform_nlp_analysis E txt = None <->
    is_Some (results (analysis E txt) !! "error_details"))) /\
  (blank txt = false ->
   let lang := fst (detect_language E txt) in
   let r0 := placeholders (snd (detect_language E txt)) in
   (lang ≠ s_en /\ lang ≠ s_vi) \/
   (lang = s_vi /\ VN_NLP_AVAILABLE E = false) \/
   (lang = s_en /\ exists r1 e, english_body E txt r0 = (r1, Raise e)) \/
   (lang = s_vi /\ VN_NLP_AVAILABLE E = true /\
    exists r1 e, vietnamese_body E txt r0 = (r1, Raise e)) ->
   perform_nlp_analysis E txt = None).
Proof.
  split; [|split].
  - intros r. apply returned_no_error_details.
  - intros Hb. unfold perform_nlp_analysis. rewrite Hb.
    apply returned_None_iff.
  - intros Hb. cbv zeta. intros H. unfold perform_nlp_analysis. rewrite Hb.
    now apply failure_branches.
Qed.

Lemma returned_dict_has_no_error_details_witness :
  (exists r,
     perform_nlp_analysis Sample.english Sample.txt_en = Some r /\
     r !! "error_details" = None) /\
  perform_nlp_analysis Sample.french Sample.txt_fr = None.
Proof.
  split.
  - exists Sample.english_dict. split; [exact sample_english_returns|].
    apply (proj1 (returned_dict_has_no_error_details
                    Sample.english Sample.txt_en)).
    exact sample_english_returns.
  - apply (proj2 (proj2 (returned_dict_has_no_error_details
                           Sample.french Sample.txt_fr)) eq_refl).
    left. split; discriminate.
Defined.

(** C1 (defect of the code): the specification has an unsupported
    language, and an exception in a strategy, give a dict whose
    'error_details' describes the failure.  On the text "Bonjour le
    monde", detected as 'fr', the function writes the message that names
    'fr' to its local [results] and then returns None; on a text on which
    spaCy raises, it writes the English error message and returns None.
    The caller receives no dict and no message, and the route, which
    looks for the key 'error_details' in what it receives, fails with a
    TypeError. *)
Theorem failure_returns_None :
  (blank Sample.txt_fr = false /\
   detect Sample.french Sample.txt_fr = Ok Sample.s_fr /\
   perform_nlp_analysis Sample.french Sample.txt_fr = None /\
   results (analysis Sample.french Sample.txt_fr) !! "error_details" =
     Some (VStr (PyStr.lit
       "Language 'fr' is not supported for full NLP analysis.")) /\
   analyze Sample.french Sample.txt_fr = TypeError) /\
  (blank Sample.txt_hello = false /\
   fst (detect_language Sample.english Sample.txt_hello) = s_en /\
   nlp_spacy_en Sample.english Sample.txt_hello =
     Raise (PyStr.lit "unexpected input") /\
   perform_nlp_analysis Sample.english Sample.txt_hello = None /\
   results (analysis Sample.english Sample.txt_hello) !! "error_details" =
     Some (VStr (PyStr.lit "English NLP error: unexpected input")) /\
   analyze Sample.english Sample.txt_hello = TypeError).
Proof.
  split.
  - split; [reflexivity|]. split; [reflexivity|].
    assert (Ha := unsupported_language Sample.french Sample.txt_fr Sample.s_fr
                    eq_refl ltac:(discriminate) ltac:(discriminate)).
    assert (Hp : perform_nlp_analysis Sample.french Sample.txt_fr = None).
    { unfold perform_nlp_analysis.
      replace (blank Sample.txt_fr) with false by reflexivity.
      now rewrite Ha. }
    split; [exact Hp|]. split.
    + rewrite Ha. cbn [results]. now rewrite lookup_insert_eq.
    + unfold analyze. rewrite Hp. reflexivity.
  - split; [reflexivity|]. split; [reflexivity|]. split; [reflexivity|].
    assert (Ha := english_exception Sample.english Sample.txt_hello
                    (placeholders
                       (snd (detect_language Sample.english Sample.txt_hello)))
                    (PyStr.lit "unexpected input") eq_refl eq_refl).
    assert (Hp : perform_nlp_analysis Sample.english Sample.txt_hello = None).
    { unfold perform_nlp_analysis.
      replace (blank Sample.txt_hello) with false by reflexivity.
      now rewrite Ha. }
    split; [exact Hp|]. split.
    + rewrite Ha. cbn [results]. now rewrite lookup_insert_eq.
    + unfold analyze. rewrite Hp. reflexivity.
Qed.

(** C2 (defect of the code): the specification has an aggregated entity
    whose text is 'Việt Nam' leave the Vietnamese strategy with the label
    COUNTRY_VN, as the comment of line 197 intends.  The code
    compares the lowered text with the literal 'Việt Nam', which has
    capital letters: on the text "Việt Nam", recognised as one location,
    the entity keeps the label LOC. *)
Theorem viet_nam_keeps_its_label :
  vn_ner Sample.vietnam s_Viet_Nam =
    Ok [(s_Viet_Nam, Sample.s_Np, Sample.s_B_LOC)] /\
  exists r,
    perform_nlp_analysis Sample.vietnam s_Viet_Nam = Some r /\
    r !! "named_entities" =
      Some (VEntities [{| text := s_Viet_Nam; label := Sample.s_LOC |}]).
Proof.
  split; [reflexivity|].
  exists Sample.vietnam_dict. split.
  - vm_cast_no_check (eq_refl (Some Sample.vietnam_dict)).
  - vm_compute. reflexivity.
Qed.

(** C4: on the tag stream [("Hà","B-LOC"), ("Nội","I-LOC"), ("đẹp","O")]
    the aggregator of the Vietnamese strategy yields exactly the entity
    {text: "Hà Nội", label: "LOC"}; and on every tag stream the loop of
    the code computes what the transitions of the specification compute:
    a B- tag flushes a non-empty accumulator and starts a new one with the
    token and the type without its prefix, an I- tag of the accumulator's
    type appends the token after a space, any other tag flushes and
    clears, and the accumulator is flushed once more at the end. *)
Theorem aggregate_entities_bio :
  (forall p1 p2 p3 : pystr,
     aggregate_entities
       [(Sample.s_Ha, p1, Sample.s_B_LOC); (Sample.s_Noi, p2, Sample.s_I_LOC);
        (Sample.s_dep, p3, Sample.s_O)] =
     [{| text := Sample.s_Ha ++ [c_space] ++ Sample.s_Noi;
         label := Sample.s_LOC |}]) /\
  (forall ner_raw : list (pystr * pystr * pystr),
     aggregate_entities ner_raw =
     spec_bio_aggregate (map (fun row => (fst (fst row), snd row)) ner_raw)).
Proof.
  split.
  - intros p1 p2 p3. reflexivity.
  - apply aggregate_entities_spec.
Qed.

(** ** The English strategy *)

(** C6: in the dict of every completed English analysis, the entity list
    is the list of spaCy's entity spans without those labelled CARDINAL,
    in order and in full (nothing is cut off); no entity of the list is
    labelled CARDINAL; and every entity whose lowered text is 'google' is
    labelled TECH_COMPANY, the label of the others being spaCy's. *)
Theorem english_entities (E : Engines) (txt : pystr) (r : dict) :
  blank txt = false ->
  fst (detect_language E txt) = s_en ->
  perform_nlp_analysis E txt = Some r ->
  exists doc out,
    nlp_spacy_en E txt = Ok doc /\
    r !! "named_entities" = Some (VEntities out) /\
    (forall e, e ∈ out -> label e ≠ s_CARDINAL) /\
    map text out =
      map ent_text (filter (fun s => label_ s ≠ s_CARDINAL) (ents doc)) /\
    (forall e, e ∈ out ->
       PyStr.lower (text e) = s_google -> label e = s_TECH_COMPANY) /\
    map label out =
      map (fun s => if decide (PyStr.lower (ent_text s) = s_google)
                    then s_TECH_COMPANY else label_ s)
          (filter (fun s => label_ s ≠ s_CARDINAL) (ents doc)).
Proof.
  intros Hb Hen Hr.
  destruct (english_returned E txt r Hb Hen Hr)
    as (doc & toks & sents & lems & Hd & _ & _ & ->).
  exists doc, (modify_entities_en (raw_entities_of doc)).
  split; [assumption|]. split; [now lookup_dict|].
  rewrite modify_entities_en_eq. unfold raw_entities_of.
  assert (Hf : filter (fun e => label e ≠ s_CARDINAL)
                 (map (fun s => {| text := ent_text s; label := label_ s |})
                      (ents doc)) =
               map (fun s => {| text := ent_text s; label := label_ s |})
                   (filter (fun s => label_ s ≠ s_CARDINAL) (ents doc))).
  { induction (ents doc) as [|s l IH]; [reflexivity|].
    cbn [map]. rewrite !filter_cons. cbn [label].
    destruct (decide (label_ s ≠ s_CARDINAL)); cbn [map]; now rewrite IH. }
  rewrite Hf. clear Hf.
  set (kept := filter (fun s => label_ s ≠ s_CARDINAL) (ents doc)).
  assert (Hk : forall s, s ∈ kept -> label_ s ≠ s_CARDINAL).
  { intros s Hs. now apply list_elem_of_filter in Hs as [? _]. }
  repeat split.
  - intros e He. apply list_elem_of_fmap in He as (e0 & -> & He0).
    apply list_elem_of_fmap in He0 as (s & -> & Hs).
    rewrite relabel_google_label. cbn [text label].
    destruct (decide _); [discriminate | now apply Hk].
  - rewrite !map_map. apply map_ext. intros s.
    now rewrite relabel_google_text.
  - intros e He Hg. apply list_elem_of_fmap in He as (e0 & -> & He0).
    rewrite relabel_google_label. rewrite relabel_google_text in Hg.
    now rewrite decide_True.
  - rewrite !map_map. apply map_ext. intros s.
    now rewrite relabel_google_label.
Qed.

Lemma english_entities_witness :
  exists out,
    Sample.english_dict !! "named_entities" = Some (VEntities out) /\
    (forall e, e ∈ out -> label e ≠ s_CARDINAL) /\
    (forall e, e ∈ out ->
       PyStr.lower (text e) = s_google -> label e = s_TECH_COMPANY).
Proof.
  destruct (english_entities Sample.english Sample.txt_en Sample.english_dict
              eq_refl eq_refl sample_english_returns)
    as (doc & out & _ & Hl & Hc & _ & Hg & _).
  exists out. repeat split; assumption.
Defined.

(** C7: in the dict of every completed English analysis, the POS list
    shows, in document order, the first 30 of the spaCy tokens that are
    not white space and whose label is none of PUNCT, SYM, X, each with
    its text and its label, a label PROPN being written NAME; so no entry
    is labelled PUNCT, SYM, X or PROPN. *)
Theorem english_pos_tags (E : Engines) (txt : pystr) (r : dict) :
  blank txt = false ->
  fst (detect_language E txt) = s_en ->
  perform_nlp_analysis E txt = Some r ->
  exists doc out,
    nlp_spacy_en E txt = Ok doc /\
    r !! "pos_tags" = Some (VPosTags out) /\
    out = firstn 30
            (map shown_pos
               (filter (fun t => is_space t = false /\
                                 pos_ t ∉ [s_PUNCT; s_SYM; s_X])
                       (doc_tokens doc))) /\
    (forall p, p ∈ out ->
       (pos p ∉ [s_PUNCT; s_SYM; s_X]) /\ pos p ≠ s_PROPN) /\
    (forall i t,
       (filter (fun t => is_space t = false /\ pos_ t ∉ [s_PUNCT; s_SYM; s_X])
               (doc_tokens doc)) !! i = Some t ->
       (i < 30)%nat -> pos_ t = s_PROPN ->
       out !! i = Some {| token := tok_text t; pos := s_NAME |}).
Proof.
  intros Hb Hen Hr.
  destruct (english_returned E txt r Hb Hen Hr)
    as (doc & toks & sents & lems & Hd & _ & _ & ->).
  eexists doc, _. split; [assumption|]. split; [now lookup_dict|].
  rewrite slice_to_min, modify_pos_tags_en_tokens.
  set (kept := filter _ (doc_tokens doc)).
  split; [reflexivity|]. split.
  - intros p Hp. apply elem_of_firstn in Hp.
    apply list_elem_of_fmap in Hp as (t & -> & Ht).
    apply list_elem_of_filter in Ht as [[_ Hf] _].
    unfold shown_pos. cbn [pos].
    destruct (decide (pos_ t = s_PROPN)) as [Hn | Hn].
    + split; [|discriminate]. intros Hin.
      repeat (apply elem_of_cons in Hin as [Hin | Hin]; [discriminate Hin|]).
      now apply elem_of_nil in Hin.
    + split; assumption.
  - intros i t Hi Hlt Hp.
    rewrite lookup_take_lt by assumption.
    rewrite list_lookup_fmap, Hi. cbn [fmap option_fmap option_map].
    unfold shown_pos. now rewrite decide_True.
Qed.

Lemma english_pos_tags_witness :
  exists out,
    Sample.english_dict !! "pos_tags" = Some (VPosTags out) /\
    (forall p, p ∈ out ->
       (pos p ∉ [s_PUNCT; s_SYM; s_X]) /\ pos p ≠ s_PROPN).
Proof.
  destruct (english_pos_tags Sample.english Sample.txt_en Sample.english_dict
              eq_refl eq_refl sample_english_returns)
    as (doc & out & _ & Hl & _ & Hp & _).
  exists out. split; assumption.
Defined.

(** C9: in the dict of every completed English analysis, the token
    list is the first 50 of the tokens of the lowered text other than
    'the', so 'the' is not in it; the word count is the number of all
    tokens, those equal to 'the' included. *)
Theorem the_dropped_from_display_only (E : Engines) (txt : pystr) (r : dict) :
  blank txt = false ->
  fst (detect_language E txt) = s_en ->
  perform_nlp_analysis E txt = Some r ->
  exists toks shown,
    word_tokenize E (PyStr.lower txt) = Ok toks /\
    r !! "first_50_tokens" = Some (VStrs shown) /\
    shown = firstn 50 (filter (fun t => t ≠ s_the) toks) /\
    (s_the ∉ shown) /\
    r !! "word_count" = Some (VInt (Z.of_nat (length toks))) /\
    length toks =
      (length (filter (fun t => t = s_the) toks)
       + length (filter (fun t => t ≠ s_the) toks))%nat.
Proof.
  intros Hb Hen Hr.
  destruct (english_returned E txt r Hb Hen Hr)
    as (doc & toks & sents & lems & _ & Ht & _ & ->).
  eexists toks, _. split; [assumption|]. split; [now lookup_dict|].
  rewrite slice_to_min. split; [reflexivity|]. split.
  - intros Hin. apply elem_of_firstn in Hin.
    apply list_elem_of_filter in Hin as [Hne _]. now apply Hne.
  - split; [now lookup_dict | apply count_the].
Qed.

Lemma the_dropped_from_display_only_witness :
  exists shown,
    Sample.english_dict !! "first_50_tokens" = Some (VStrs shown) /\
    (s_the ∉ shown) /\
    Sample.english_dict !! "word_count" = Some (VInt 7).
Proof.
  destruct (the_dropped_from_display_only
              Sample.english Sample.txt_en Sample.english_dict
              eq_refl eq_refl sample_english_returns)
    as (toks & shown & Ht & Hl & _ & Hn & Hw & _).
  injection Ht as <-.
  exists shown. repeat split; assumption.
Defined.

(** ** Both strategies *)

(** C8: in every dict returned for a text that is not blank, whichever
    the language, the POS list has at most 30 entries, the token list at
    most 50 and the lemma list at most 20. *)
Theorem list_lengths_bounded (E : Engines) (txt : pystr) (r : dict) :
  blank txt = false ->
  perform_nlp_analysis E txt = Some r ->
  exists tags toks lems,
    r !! "pos_tags" = Some (VPosTags tags) /\
    r !! "first_50_tokens" = Some (VStrs toks) /\
    r !! "unique_lemmas" = Some (VStrs lems) /\
    (length tags <= 30)%nat /\
    (length toks <= 50)%nat /\
    (length lems <= 20)%nat.
Proof.
  intros Hb Hr.
  destruct (perform_nlp_analysis_returned E txt r Hb Hr)
    as [(_ & doc & toks & sents & words & lems & _ & _ & _ & _ & _ & ->)
       | (_ & _ & seg & tags & ner & _ & _ & _ & ->)].
  - eexists _, _, _. split; [now lookup_dict|].
    split; [now lookup_dict|]. split; [now lookup_dict|].
    repeat split; apply length_slice_to.
  - eexists _, _, _. split; [now lookup_dict|].
    split; [now lookup_dict|]. split; [now lookup_dict|].
    repeat split; try apply length_slice_to. cbn [length]. lia.
Qed.

Lemma list_lengths_bounded_witness :
  exists tags toks lems,
    Sample.hanoi_dict !! "pos_tags" = Some (VPosTags tags) /\
    Sample.hanoi_dict !! "first_50_tokens" = Some (VStrs toks) /\
    Sample.hanoi_dict !! "unique_lemmas" = Some (VStrs lems) /\
    (length tags <= 30)%nat /\
    (length toks <= 50)%nat /\
    (length lems <= 20)%nat.
Proof.
  apply (list_lengths_bounded Sample.hanoi Sample.txt_hanoi Sample.hanoi_dict
           eq_refl sample_hanoi_returns).
Defined.

(** C10: every dict returned for a text that is not blank, whichever the
    language, has the six analytic fields (word count, sentence count,
    tokens, lemmas, entities, POS tags) and no 'error_details'; when the
    language is Vietnamese its lemma list is empty.  A failure returns
    None, so that no value reaches the caller with both a message and
    analytic fields. *)
Theorem success_has_all_fields (E : Engines) (txt : pystr) (r : dict) :
  blank txt = false ->
  perform_nlp_analysis E txt = Some r ->
  (exists wc sc toks lems ents tags,
     r !! "word_count" = Some (VInt wc) /\
     r !! "sentence_count" = Some (VInt sc) /\
     r !! "first_50_tokens" = Some (VStrs toks) /\
     r !! "unique_lemmas" = Some (VStrs lems) /\
     r !! "named_entities" = Some (VEntities ents) /\
     r !! "pos_tags" = Some (VPosTags tags)) /\
  r !! "error_details" = None /\
  (fst (detect_language E txt) = s_vi ->
   r !! "unique_lemmas" = Some (VStrs [])).
Proof.
  intros Hb Hr. split; [|split].
  - destruct (perform_nlp_analysis_returned E txt r Hb Hr)
      as [(_ & doc & toks & sents & words & lems & _ & _ & _ & _ & _ & ->)
         | (_ & _ & seg & tags & ner & _ & _ & _ & ->)];
      eexists _, _, _, _, _, _; repeat split; now lookup_dict.
  - apply (returned_no_error_details E txt r Hr).
  - intros Hvi.
    destruct (perform_nlp_analysis_returned E txt r Hb Hr)
      as [(Hen & _) | (_ & _ & seg & tags & ner & _ & _ & _ & ->)].
    + exfalso. apply (detected_en_not_vi E txt Hen Hvi).
    + now lookup_dict.
Qed.

Lemma success_has_all_fields_witness :
  Sample.hanoi_dict !! "error_details" = None /\
  Sample.hanoi_dict !! "unique_lemmas" = Some (VStrs []).
Proof.
  destruct (success_has_all_fields Sample.hanoi Sample.txt_hanoi
              Sample.hanoi_dict eq_refl sample_hanoi_returns)
    as (_ & He & Hl).
  split; [exact He | exact (Hl eq_refl)].
Defined.

(** * Further properties of the code *)

(** ** The guard on blank input, conversely *)

Lemma lstrip_head (s r : pystr) (c : N) :
  PyStr.lstrip s = c :: r -> PyStr.isspace c = false.
Proof.
  induction s as [|a s IH]; simpl; [discriminate|].
  destruct (PyStr.isspace a) eqn:Ha; [exact IH|].
  intros [= <- _]. exact Ha.
Qed.

Lemma lstrip_nil (s : pystr) :
  PyStr.lstrip s = [] -> forallb PyStr.isspace s = true.
Proof.
  induction s as [|a s IH]; simpl; [reflexivity|].
  destruct (PyStr.isspace a); [exact IH | discriminate].
Qed.

Lemma strip_nil (s : pystr) :
  PyStr.strip s = [] -> forallb PyStr.isspace s = true.
Proof.
  unfold PyStr.strip, PyStr.rstrip. intros H.
  apply (f_equal (@rev N)) in H. rewrite rev_involutive in H. simpl in H.
  apply lstrip_nil in H.
  destruct (PyStr.lstrip s) as [|c r] eqn:Hl; [now apply lstrip_nil|].
  apply lstrip_head in Hl.
  rewrite forallb_forall in H. specialize (H c).
  rewrite H in Hl; [discriminate|]. apply in_rev. rewrite rev_involutive.
  now left.
Qed.

Lemma blank_iff (s : pystr) :
  blank s = true <-> forallb PyStr.isspace s = true.
Proof.
  split; [|apply blank_all_space].
  unfold blank. intros H. apply orb_true_iff in H as [H | H].
  - destruct s; [reflexivity | discriminate].
  - apply strip_nil. destruct (PyStr.strip s); [reflexivity | discriminate].
Qed.

(** The first disjunct of the guard of line 67 is implied by the
    second. *)
Lemma blank_strip (s : pystr) :
  blank s = negb (PyStr.truthy (PyStr.strip s)).
Proof.
  unfold blank. destruct s as [|c s]; [reflexivity|]. reflexivity.
Qed.

(** ** Splitting *)

Lemma length_split_acc (sep : N) (s cur : pystr) :
  length (PyStr.split_acc sep cur s) = S (count_cp sep s).
Proof.
  unfold count_cp. revert cur.
  induction s as [|c s IH]; intros cur; [reflexivity|].
  cbn [PyStr.split_acc]. rewrite filter_cons.
  destruct (N.eqb_spec c sep) as [-> | Hne].
  - rewrite decide_True by reflexivity. cbn [length]. now rewrite IH.
  - rewrite decide_False by assumption. apply IH.
Qed.

Lemma length_split (sep : N) (s : pystr) :
  length (PyStr.split sep s) = S (count_cp sep s).
Proof. apply length_split_acc. Qed.

Lemma split_acc_no_sep (sep : N) (s cur : pystr) :
  count_cp sep s = 0%nat -> PyStr.split_acc sep cur s = [rev cur ++ s].
Proof.
  unfold count_cp. revert cur.
  induction s as [|c s IH]; intros cur; cbn [PyStr.split_acc].
  - now rewrite app_nil_r.
  - rewrite filter_cons. destruct (N.eqb_spec c sep) as [-> | Hne].
    + rewrite decide_True by reflexivity. discriminate.
    + rewrite decide_False by assumption. intros H.
      rewrite (IH (c :: cur) H). cbn [rev]. now rewrite <- app_assoc.
Qed.

(** ** When a strategy completes *)

Section Completion.

Context (E : Engines).





(** X3: in a dict returned for a text that is not blank, 'lang' is the
    detected code, which is then 'en' or 'vi', or, when detection raised,
    the marker "unknown (defaulting to English)", the text having been
    analysed by the English strategy. *)
Theorem returned_lang (txt : pystr) (r : dict) :
  blank txt = false ->
  perform_nlp_analysis E txt = Some r ->
  (detect E txt = Ok s_en /\ r !! "lang" = Some (VStr s_en)) \/
  (detect E txt = Ok s_vi /\ r !! "lang" = Some (VStr s_vi)) \/
  (exists e doc,
     detect E txt = Raise e /\ nlp_spacy_en E txt = Ok doc /\
     r !! "lang" = Some (VStr s_unknown_default)).
Proof.
  intros Hb Hr.
  destruct (perform_nlp_analysis_returned E txt r Hb Hr)
    as [(Hl & doc & toks & sents & words & lems & Hd & _ & _ & _ & _ & ->)
       | (Hl & _ & seg & tags & ner & _ & _ & _ & ->)];
    unfold detect_language in *; destruct (detect E txt) as [lang | e];
    cbn [fst snd] in *.
  - left. subst lang. split; [reflexivity | now lookup_dict].
  - right. right. exists e, doc.
    split; [reflexivity|]. split; [assumption | now lookup_dict].
  - right. left. subst lang. split; [reflexivity | now lookup_dict].
  - discriminate Hl.
Qed.

(** X4: the marker "unknown" is returned as 'lang' exactly for the texts
    that are empty or all white space; every other text is analysed (or
    fails). *)
Theorem lang_unknown_iff_blank (txt : pystr) (r : dict) :
  perform_nlp_analysis E txt = Some r ->
  r !! "lang" = Some (VStr s_unknown) <-> forallb PyStr.isspace txt = true.
Proof.
  intros Hr. rewrite <- blank_iff. destruct (blank txt) eqn:Hb.
  - unfold perform_nlp_analysis in Hr. rewrite Hb in Hr. injection Hr as <-.
    split; [reflexivity | intros _; apply lookup_singleton_eq].
  - split; [|discriminate]. intros Hl.
    destruct (returned_lang txt r Hb Hr)
      as [[_ H] | [[_ H] | (e & doc & _ & _ & H)]];
      rewrite H in Hl; discriminate Hl.
Qed.

End Completion.



Lemma returned_lang_witness :
  Sample.english_dict !! "lang" = Some (VStr s_en).
Proof.
  destruct (returned_lang Sample.english Sample.txt_en Sample.english_dict
              eq_refl sample_english_returns)
    as [[_ H] | [[H _] | (e & doc & H & _)]];
    [exact H | discriminate H | discriminate H].
Defined.

Lemma lang_unknown_iff_blank_witness :
  ({["lang" := VStr s_unknown]} : dict) !! "lang" = Some (VStr s_unknown) <->
  forallb PyStr.isspace [32; 9; 10] = true.
Proof.
  apply (lang_unknown_iff_blank Sample.french [32; 9; 10]). reflexivity.
Defined.

(** ** The Vietnamese strategy *)

Lemma vietnamese_returned (E : Engines) (txt : pystr) (r : dict) :
  blank txt = false ->
  fst (detect_language E txt) = s_vi ->
  perform_nlp_analysis E txt = Some r ->
  exists segmented tags ner,
    vn_word_tokenize E txt = Ok segmented /\
    vn_pos_tag E txt = Ok tags /\
    vn_ner E txt = Ok ner /\
    r = vietnamese_results txt segmented tags ner
          (placeholders (snd (detect_language E txt))).
Proof.
  intros Hb Hvi Hr.
  destruct (perform_nlp_analysis_returned E txt r Hb Hr)
    as [[Hen _] | (_ & _ & H)]; [|exact H].
  exfalso. now apply (detected_en_not_vi E txt).
Qed.

Lemma flat_map_split_acc (sep : N) (s cur : pystr) :
  flat_map (fun t => sep :: t) (PyStr.split_acc sep cur s) =
  sep :: rev cur ++ s.
Proof.
  revert cur. induction s as [|c s IH]; intros cur; cbn [PyStr.split_acc].
  - cbn [flat_map]. now rewrite !app_nil_r.
  - destruct (N.eqb_spec c sep) as [-> | Hne].
    + cbn [flat_map]. rewrite IH. cbn [rev app]. reflexivity.
    + rewrite IH. cbn [rev]. now rewrite <- app_assoc.
Qed.

Lemma join_split (sep : N) (s : pystr) : join sep (PyStr.split sep s) = s.
Proof.
  pose proof (flat_map_split_acc sep s []) as H. unfold PyStr.split.
  destruct (PyStr.split_acc sep [] s) as [|x l] eqn:Hs.
  - discriminate H.
  - cbn [flat_map rev app] in H. cbn [join]. now injection H.
Qed.

(** X5: in the dict of every completed Vietnamese analysis, the word
    count is one more than the number of spaces in the segmenter's
    output, so it is never 0; the token list is the first 50 of the
    segments between those spaces; and when there are at most 50 words
    the tokens joined by spaces give the segmenter's output back. *)
Theorem vietnamese_tokens (E : Engines) (txt : pystr) (r : dict) :
  blank txt = false ->
  fst (detect_language E txt) = s_vi ->
  perform_nlp_analysis E txt = Some r ->
  exists segmented toks,
    vn_word_tokenize E txt = Ok segmented /\
    r !! "word_count" =
      Some (VInt (Z.of_nat (S (count_cp c_space segmented)))) /\
    r !! "first_50_tokens" = Some (VStrs toks) /\
    toks = firstn 50 (PyStr.split c_space segmented) /\
    toks ≠ [] /\
    ((count_cp c_space segmented < 50)%nat -> join c_space toks = segmented).
Proof.
  intros Hb Hvi Hr.
  destruct (vietnamese_returned E txt r Hb Hvi Hr)
    as (seg & tags & ner & Hs & _ & _ & ->).
  eexists seg, _. split; [assumption|]. split.
  { lookup_dict. now rewrite length_split. }
  split; [now lookup_dict|]. rewrite slice_to_min.
  split; [reflexivity|]. split.
  - pose proof (length_split c_space seg) as Hl.
    destruct (PyStr.split c_space seg); [discriminate Hl | discriminate].
  - intros Hc. rewrite firstn_all2 by (rewrite length_split; lia).
    apply join_split.
Qed.

Lemma vietnamese_tokens_witness :
  Sample.hanoi_dict !! "word_count" = Some (VInt 2) /\
  exists toks,
    Sample.hanoi_dict !! "first_50_tokens" = Some (VStrs toks) /\
    join c_space toks = [72; 224; 95] ++ Sample.s_Noi ++ [32] ++ Sample.s_dep.
Proof.
  destruct (vietnamese_tokens Sample.hanoi Sample.txt_hanoi Sample.hanoi_dict
              eq_refl eq_refl sample_hanoi_returns)
    as (seg & toks & Hs & Hw & Ht & _ & _ & Hj).
  injection Hs as <-. split; [exact Hw|].
  exists toks. split; [exact Ht|]. apply Hj. vm_compute. lia.
Defined.

(** X6: in the dict of every completed Vietnamese analysis, the sentence
    count is at most one more than the number of periods of the text, and
    it is 1 for a text without a period. *)
Theorem vietnamese_sentence_count (E : Engines) (txt : pystr) (r : dict) :
  blank txt = false ->
  fst (detect_language E txt) = s_vi ->
  perform_nlp_analysis E txt = Some r ->
  exists n : nat,
    r !! "sentence_count" = Some (VInt (Z.of_nat n)) /\
    (n <= S (count_cp c_period txt))%nat /\
    (count_cp c_period txt = 0%nat -> n = 1%nat).
Proof.
  intros Hb Hvi Hr.
  destruct (vietnamese_returned E txt r Hb Hvi Hr)
    as (seg & tags & ner & _ & _ & _ & ->).
  eexists. split; [now lookup_dict|]. split.
  - rewrite <- (length_split c_period txt). apply length_filter.
  - intros H0. unfold PyStr.split. rewrite (split_acc_no_sep _ _ _ H0).
    cbn [rev app]. rewrite filter_cons.
    rewrite blank_strip in Hb. apply negb_false_iff in Hb.
    now rewrite decide_True by assumption.
Qed.

Lemma vietnamese_sentence_count_witness :
  Sample.hanoi_dict !! "sentence_count" = Some (VInt 1).
Proof.
  destruct (vietnamese_sentence_count Sample.hanoi Sample.txt_hanoi
              Sample.hanoi_dict eq_refl eq_refl sample_hanoi_returns)
    as (n & Hn & _ & H1).
  rewrite (H1 eq_refl) in Hn. exact Hn.
Defined.

(** X7: in the dict of every completed Vietnamese analysis, the POS list
    is the first 30, in order, of the tagger's (token, tag) pairs whose
    tag is none of P, CH, F, each unchanged; so no entry has one of these
    tags. *)
Theorem vietnamese_pos_tags (E : Engines) (txt : pystr) (r : dict) :
  blank txt = false ->
  fst (detect_language E txt) = s_vi ->
  perform_nlp_analysis E txt = Some r ->
  exists tags out,
    vn_pos_tag E txt = Ok tags /\
    r !! "pos_tags" = Some (VPosTags out) /\
    out = firstn 30
            (map (fun tp => {| token := fst tp; pos := snd tp |})
                 (filter (fun tp => snd tp ∉ [s_P; s_CH; s_F]) tags)) /\
    (forall p, p ∈ out -> pos p ∉ [s_P; s_CH; s_F]).
Proof.
  intros Hb Hvi Hr.
  destruct (vietnamese_returned E txt r Hb Hvi Hr)
    as (seg & tags & ner & _ & Ht & _ & ->).
  eexists tags, _. split; [assumption|]. split; [now lookup_dict|].
  rewrite slice_to_min. unfold modify_pos_tags_vi. rewrite fold_pos_rule_vi.
  cbn [app]. split; [reflexivity|].
  intros p Hp. apply elem_of_firstn in Hp.
  apply list_elem_of_fmap in Hp as (tp & -> & Htp).
  now apply list_elem_of_filter in Htp as [? _].
Qed.

Lemma vietnamese_pos_tags_witness :
  exists out,
    Sample.hanoi_dict !! "pos_tags" = Some (VPosTags out) /\
    (forall p, p ∈ out -> pos p ∉ [s_P; s_CH; s_F]).
Proof.
  destruct (vietnamese_pos_tags Sample.hanoi Sample.txt_hanoi
              Sample.hanoi_dict eq_refl eq_refl sample_hanoi_returns)
    as (tags & out & _ & Hl & _ & Hp).
  exists out. split; assumption.
Defined.

(** ** Tokens and lemmas *)

(** X8: in every dict returned for a text that is not blank, whichever
    the language, the token list has at most as many entries as the word
    count says. *)
Theorem shown_tokens_le_word_count (E : Engines) (txt : pystr) (r : dict) :
  blank txt = false ->
  perform_nlp_analysis E txt = Some r ->
  exists toks wc,
    r !! "first_50_tokens" = Some (VStrs toks) /\
    r !! "word_count" = Some (VInt wc) /\
    (Z.of_nat (length toks) <= wc)%Z.
Proof.
  intros Hb Hr.
  destruct (perform_nlp_analysis_returned E txt r Hb Hr)
    as [(_ & doc & toks & sents & words & lems & _ & _ & _ & _ & _ & ->)
       | (_ & _ & seg & tags & ner & _ & _ & _ & ->)];
    eexists _, _; (split; [now lookup_dict|]); (split; [now lookup_dict|]);
    rewrite slice_to_min; apply inj_le; rewrite length_firstn.
  - pose proof (length_filter (fun t => t ≠ s_the) toks). lia.
  - lia.
Qed.

Lemma shown_tokens_le_word_count_witness :
  exists toks wc,
    Sample.english_dict !! "first_50_tokens" = Some (VStrs toks) /\
    Sample.english_dict !! "word_count" = Some (VInt wc) /\
    (Z.of_nat (length toks) <= wc)%Z.
Proof.
  apply (shown_tokens_le_word_count Sample.english Sample.txt_en
           Sample.english_dict eq_refl sample_english_returns).
Defined.

Lemma map_result_Ok {A B} (f : A -> result B) (l : list A) (bs : list B) :
  map_result f l = Ok bs -> Forall2 (fun a b => f a = Ok b) l bs.
Proof.
  revert bs. induction l as [|a l IH]; intros bs; cbn [map_result].
  - intros [= <-]. constructor.
  - destruct (f a) as [b|] eqn:Hf; [|discriminate].
    destruct (map_result f l) as [bs'|]; [|discriminate].
    intros [= <-]. constructor; auto.
Qed.

(** X9: in the dict of every completed English analysis, the lemma list
    has no duplicates, and each of its entries is the lemma of a token of
    the lowered text that is alphabetic and is no stop word; when there
    are at most 20 distinct such lemmas, all of them are in the list. *)
Theorem english_unique_lemmas (E : Engines) (txt : pystr) (r : dict) :
  blank txt = false ->
  fst (detect_language E txt) = s_en ->
  perform_nlp_analysis E txt = Some r ->
  exists toks words out,
    word_tokenize E (PyStr.lower txt) = Ok toks /\
    stopwords_words E s_english = Ok words /\
    r !! "unique_lemmas" = Some (VStrs out) /\
    NoDup out /\
    (forall x, x ∈ out ->
       exists t, t ∈ toks /\ isalpha E t = true /\ (t ∉ words) /\
                 lemmatize E t = Ok x) /\
    ((length out < 20)%nat ->
     forall t x, t ∈ toks -> isalpha E t = true -> t ∉ words ->
                 lemmatize E t = Ok x -> x ∈ out).
Proof.
  intros Hb Hen Hr.
  destruct (perform_nlp_analysis_returned E txt r Hb Hr)
    as [(_ & doc & toks & sents & words & lems & _ & Ht & _ & Hw & Hl & ->)
       | (Hvi & _)];
    [|exfalso; now apply (detected_en_not_vi E txt)].
  eexists toks, words, _. split; [assumption|]. split; [assumption|].
  split; [now lookup_dict|]. unfold slice_to.
  apply map_result_Ok in Hl.
  set (order := set_iter E (list_to_set lems)).
  assert (Hmem : forall x, x ∈ order <-> x ∈ lems).
  { intros x. unfold order. rewrite (set_iter_perm E).
    rewrite elem_of_elements. apply elem_of_list_to_set. }
  assert (Hnd : NoDup order).
  { unfold order. rewrite (set_iter_perm E). apply NoDup_elements. }
  split; [|split].
  - eapply sublist_NoDup; [exact Hnd | apply sublist_take].
  - intros x Hx. apply elem_of_firstn, Hmem in Hx.
    apply list_elem_of_lookup in Hx as [i Hi].
    destruct (Forall2_lookup_r _ _ _ _ _ Hl Hi) as (t & Hti & Hf).
    apply list_elem_of_lookup_2 in Hti.
    apply list_elem_of_filter in Hti as [[Ha Hs] Hin].
    exists t. repeat split; try assumption.
    intros Hin'. apply Hs. now apply elem_of_list_to_set.
  - intros Hlen t x Hin Ha Hs Hf.
    assert (Hx : x ∈ lems).
    { assert (Hft : t ∈ filter (fun t => isalpha E t = true /\
                                  t ∉ (list_to_set words : gset pystr)) toks).
      { apply list_elem_of_filter. split; [|assumption]. split; [assumption|].
        intros Hin'. apply Hs. now apply elem_of_list_to_set in Hin'. }
      apply list_elem_of_lookup in Hft as [i Hi].
      destruct (Forall2_lookup_l _ _ _ _ _ Hl Hi) as (y & Hyi & Hy).
      rewrite Hf in Hy. injection Hy as <-.
      now apply list_elem_of_lookup_2 in Hyi. }
    assert (Hle : (length order <= length lems)%nat).
    { apply submseteq_length, NoDup_submseteq; [exact Hnd|].
      intros y Hy. now apply Hmem. }
    rewrite length_firstn in Hlen.
    rewrite firstn_all2 by lia. now apply Hmem.
Qed.

Lemma english_unique_lemmas_witness :
  exists out,
    Sample.english_dict !! "unique_lemmas" = Some (VStrs out) /\ NoDup out.
Proof.
  destruct (english_unique_lemmas Sample.english Sample.txt_en
              Sample.english_dict eq_refl eq_refl sample_english_returns)
    as (toks & words & out & _ & _ & Hl & Hn & _).
  exists out. split; assumption.
Defined.

(** ** The entity aggregator *)

Lemma aggregate_entities_finish (l : list (pystr * pystr * pystr)) :
  aggregate_entities l = ner_finish (fold_left ner_round l ner_init).
Proof. reflexivity. Qed.

Lemma ner_round_B (st : ner_state) (tok p tag : pystr) :
  PyStr.startswith s_B_ tag = true ->
  ner_round st (tok, p, tag) =
  {| current_entity_text := tok;
     current_entity_label := skipn 2 tag;
     modified_entities := ner_finish st |}.
Proof. intros H. unfold ner_round. now rewrite H. Qed.

Lemma ner_round_I (st : ner_state) (tok p tag : pystr) :
  PyStr.startswith s_B_ tag = false ->
  PyStr.startswith s_I_ tag = true ->
  skipn 2 tag = current_entity_label st ->
  ner_round st (tok, p, tag) =
  {| current_entity_text := current_entity_text st ++ c_space :: tok;
     current_entity_label := current_entity_label st;
     modified_entities := modified_entities st |}.
Proof.
  intros HB HI Hl. unfold ner_round, PyStr.eqb, PyStr.slice_from.
  rewrite HB, HI, Hl. now rewrite bool_decide_eq_true_2.
Qed.

Lemma ner_round_O (st : ner_state) (tok p tag : pystr) :
  PyStr.startswith s_B_ tag = false ->
  PyStr.startswith s_I_ tag = false \/ skipn 2 tag ≠ current_entity_label st ->
  ner_round st (tok, p, tag) =
  {| current_entity_text := [];
     current_entity_label := [];
     modified_entities := ner_finish st |}.
Proof.
  intros HB HI. unfold ner_round, PyStr.eqb, PyStr.slice_from. rewrite HB.
  destruct HI as [-> | Hne]; [reflexivity|].
  rewrite (bool_decide_eq_false_2 _ Hne). now rewrite andb_false_r.
Qed.

(** The three cases of a round. *)
Lemma ner_round_cases (st : ner_state) (tok p tag : pystr) :
  (PyStr.startswith s_B_ tag = true /\
   ner_round st (tok, p, tag) =
   {| current_entity_text := tok; current_entity_label := skipn 2 tag;
      modified_entities := ner_finish st |}) \/
  (PyStr.startswith s_B_ tag = false /\ PyStr.startswith s_I_ tag = true /\
   skipn 2 tag = current_entity_label st /\
   ner_round st (tok, p, tag) =
   {| current_entity_text := current_entity_text st ++ c_space :: tok;
      current_entity_label := current_entity_label st;
      modified_entities := modified_entities st |}) \/
  (PyStr.startswith s_B_ tag = false /\
   ner_round st (tok, p, tag) =
   {| current_entity_text := []; current_entity_label := [];
      modified_entities := ner_finish st |}).
Proof.
  destruct (PyStr.startswith s_B_ tag) eqn:HB.
  - left. split; [reflexivity | now apply ner_round_B].
  - destruct (PyStr.startswith s_I_ tag) eqn:HI.
    + destruct (decide (skipn 2 tag = current_entity_label st)) as [He | Hne].
      * right. left. repeat split; try assumption. now apply ner_round_I.
      * right. right. split; [reflexivity|]. apply ner_round_O; auto.
    + right. right. split; [reflexivity|]. apply ner_round_O; auto.
Qed.

Lemma ner_finish_prepend (pre : list entity) (st : ner_state) :
  ner_finish (prepend_entities pre st) = pre ++ ner_finish st.
Proof.
  unfold ner_finish, prepend_entities.
  cbn [current_entity_text current_entity_label modified_entities].
  destruct (PyStr.truthy _); [now rewrite app_assoc | reflexivity].
Qed.

Lemma ner_round_prepend (pre : list entity) (st : ner_state)
  (row : pystr * pystr * pystr) :
  ner_round (prepend_entities pre st) row =
  prepend_entities pre (ner_round st row).
Proof.
  destruct row as [[tok p] tag]. destruct st as [t lb ents].
  unfold ner_round, prepend_entities.
  cbn [current_entity_text current_entity_label modified_entities].
  destruct (PyStr.startswith s_B_ tag).
  - cbn [current_entity_text current_entity_label modified_entities].
    destruct (PyStr.truthy t); [now rewrite app_assoc | reflexivity].
  - destruct (PyStr.startswith s_I_ tag && PyStr.eqb _ lb);
      cbn [current_entity_text current_entity_label modified_entities];
      [reflexivity|].
    destruct (PyStr.truthy t); [now rewrite app_assoc | reflexivity].
Qed.

Lemma fold_ner_round_prepend (pre : list entity)
  (l : list (pystr * pystr * pystr)) (st : ner_state) :
  fold_left ner_round l (prepend_entities pre st) =
  prepend_entities pre (fold_left ner_round l st).
Proof.
  revert st. induction l as [|row l IH]; intros st; [reflexivity|].
  cbn [fold_left]. now rewrite ner_round_prepend, IH.
Qed.

(** X10: no entity spans a B- tag or a tag that has neither prefix: the
    entities of a stream cut at a B- row are those of the part before it
    followed by those of the rest from that row on; cut at a row whose
    tag starts with neither B- nor I-, they are those of the part before
    followed by those of the part after. *)
Theorem aggregate_entities_cut (l1 l2 : list (pystr * pystr * pystr))
  (tok p tag : pystr) :
  (PyStr.startswith s_B_ tag = true ->
   aggregate_entities (l1 ++ (tok, p, tag) :: l2) =
   aggregate_entities l1 ++ aggregate_entities ((tok, p, tag) :: l2)) /\
  (PyStr.startswith s_B_ tag = false -> PyStr.startswith s_I_ tag = false ->
   aggregate_entities (l1 ++ (tok, p, tag) :: l2) =
   aggregate_entities l1 ++ aggregate_entities l2).
Proof.
  rewrite !aggregate_entities_finish, fold_left_app. cbn [fold_left].
  set (st1 := fold_left ner_round l1 ner_init). split.
  - intros HB. rewrite !(ner_round_B _ _ _ _ HB).
    change (ner_finish ner_init) with (@nil entity).
    rewrite <- (app_nil_r (ner_finish st1)).
    change {| current_entity_text := tok;
              current_entity_label := skipn 2 tag;
              modified_entities := ner_finish st1 ++ [] |}
      with (prepend_entities (ner_finish st1)
              {| current_entity_text := tok;
                 current_entity_label := skipn 2 tag;
                 modified_entities := [] |}).
    rewrite fold_ner_round_prepend, ner_finish_prepend.
    now rewrite app_nil_r.
  - intros HB HI. rewrite (ner_round_O _ _ _ _ HB (or_introl HI)).
    rewrite <- (app_nil_r (ner_finish st1)).
    change {| current_entity_text := [];
              current_entity_label := [];
              modified_entities := ner_finish st1 ++ [] |}
      with (prepend_entities (ner_finish st1) ner_init).
    rewrite fold_ner_round_prepend, ner_finish_prepend.
    now rewrite app_nil_r.
Qed.

Lemma aggregate_entities_cut_witness :
  aggregate_entities
    ([(Sample.s_Ha, Sample.s_Np, Sample.s_B_LOC)]
     ++ (Sample.s_dep, Sample.s_A, Sample.s_O)
     :: [(Sample.s_Noi, Sample.s_Np, Sample.s_B_LOC)]) =
  aggregate_entities [(Sample.s_Ha, Sample.s_Np, Sample.s_B_LOC)]
  ++ aggregate_entities [(Sample.s_Noi, Sample.s_Np, Sample.s_B_LOC)].
Proof.
  apply (aggregate_entities_cut
           [(Sample.s_Ha, Sample.s_Np, Sample.s_B_LOC)]
           [(Sample.s_Noi, Sample.s_Np, Sample.s_B_LOC)]
           Sample.s_dep Sample.s_A Sample.s_O); reflexivity.
Defined.

Lemma fold_ner_round_inside (ty : pystr) (rows : list (pystr * pystr))
  (t : pystr) (out : list entity) :
  fold_left ner_round
    (map (fun tp => (fst tp, snd tp, s_I_ ++ ty)) rows)
    {| current_entity_text := t; current_entity_label := ty;
       modified_entities := out |} =
  {| current_entity_text := t ++ flat_map (fun x => c_space :: x) (map fst rows);
     current_entity_label := ty;
     modified_entities := out |}.
Proof.
  revert t. induction rows as [|[tok p] rows IH]; intros t.
  - cbn [map flat_map fold_left]. now rewrite app_nil_r.
  - cbn [map fold_left fst snd flat_map].
    rewrite ner_round_I; [| reflexivity | reflexivity | reflexivity].
    cbn [current_entity_text current_entity_label modified_entities].
    rewrite IH. now rewrite <- app_assoc.
Qed.

(** X11: a row tagged B-T with a non-empty token, followed by rows
    tagged I-T only, gives exactly one entity: its label is T and its text
    is the tokens joined by single spaces. *)
Theorem aggregate_entities_run (ty t0 p0 : pystr)
  (rows : list (pystr * pystr)) :
  t0 ≠ [] ->
  aggregate_entities
    ((t0, p0, s_B_ ++ ty)
     :: map (fun tp => (fst tp, snd tp, s_I_ ++ ty)) rows) =
  [{| text := join c_space (t0 :: map fst rows); label := ty |}].
Proof.
  intros Ht. rewrite aggregate_entities_finish. cbn [fold_left].
  rewrite ner_round_B by reflexivity.
  change (skipn 2 (s_B_ ++ ty)) with ty.
  change (ner_finish ner_init) with (@nil entity).
  rewrite fold_ner_round_inside. unfold ner_finish.
  cbn [current_entity_text current_entity_label modified_entities join].
  destruct t0; [contradiction | reflexivity].
Qed.

Lemma aggregate_entities_run_witness :
  aggregate_entities
    [(Sample.s_Ha, Sample.s_Np, Sample.s_B_LOC);
     (Sample.s_Noi, Sample.s_Np, Sample.s_I_LOC)] =
  [{| text := Sample.s_Ha ++ [32] ++ Sample.s_Noi; label := Sample.s_LOC |}].
Proof.
  apply (aggregate_entities_run Sample.s_LOC Sample.s_Ha Sample.s_Np
           [(Sample.s_Noi, Sample.s_Np)]).
  discriminate.
Defined.

Lemma ner_finish_Forall (P : entity -> Prop) (st : ner_state) :
  Forall P (modified_entities st) ->
  (current_entity_text st ≠ [] ->
   P {| text := current_entity_text st; label := current_entity_label st |}) ->
  Forall P (ner_finish st).
Proof.
  intros He Hc. unfold ner_finish.
  destruct (current_entity_text st) eqn:Ht; [exact He|].
  cbn [PyStr.truthy]. apply Forall_app. split; [exact He|].
  constructor; [|constructor]. now apply Hc.
Qed.

Lemma fold_ner_round_text_nonempty (l : list (pystr * pystr * pystr))
  (st : ner_state) :
  Forall (fun e => text e ≠ []) (modified_entities st) ->
  Forall (fun e => text e ≠ []) (ner_finish (fold_left ner_round l st)).
Proof.
  revert st. induction l as [|[[tok p] tag] l IH]; intros st Hst.
  - apply ner_finish_Forall; [exact Hst | auto].
  - cbn [fold_left]. apply IH.
    assert (Hf : Forall (fun e => text e ≠ []) (ner_finish st))
      by (apply ner_finish_Forall; auto).
    destruct (ner_round_cases st tok p tag)
      as [[_ ->] | [(_ & _ & _ & ->) | [_ ->]]]; assumption.
Qed.

(** X12: every entity the aggregator yields has a non-empty text. *)
Theorem aggregate_entities_text_nonempty (ner_raw : list (pystr * pystr * pystr))
  (e : entity) :
  e ∈ aggregate_entities ner_raw -> text e ≠ [].
Proof.
  rewrite aggregate_entities_finish. intros He.
  pose proof (fold_ner_round_text_nonempty ner_raw ner_init
                ltac:(constructor)) as H.
  rewrite Forall_forall in H. now apply H.
Qed.

Section Labels.

Context (ner_raw : list (pystr * pystr * pystr)).

(** A label is empty or the type of a B- tag of the stream. *)
Let from_stream (lb : pystr) : Prop :=
  lb = [] \/ exists row, row ∈ ner_raw /\ begins lb row.

Lemma fold_ner_round_labels (l : list (pystr * pystr * pystr))
  (st : ner_state) :
  (forall row, row ∈ l -> row ∈ ner_raw) ->
  from_stream (current_entity_label st) ->
  Forall (fun e => from_stream (label e)) (modified_entities st) ->
  Forall (fun e => from_stream (label e))
         (ner_finish (fold_left ner_round l st)).
Proof.
  revert st. induction l as [|[[tok p] tag] l IH]; intros st Hl Hc He.
  - apply ner_finish_Forall; auto.
  - cbn [fold_left].
    assert (Hf : Forall (fun e => from_stream (label e)) (ner_finish st))
      by (apply ner_finish_Forall; auto).
    assert (Hl' : forall row, row ∈ l -> row ∈ ner_raw)
      by (intros row Hr; apply Hl; now right).
    destruct (ner_round_cases st tok p tag)
      as [[HB ->] | [(_ & _ & _ & ->) | [_ ->]]]; apply IH; try assumption.
    + right. exists (tok, p, tag). split; [apply Hl; now left|].
      split; [exact HB | reflexivity].
    + now left.
Qed.

End Labels.

(** X13: the label of every entity the aggregator yields is the type,
    without its prefix, of a B- tag of the stream, or is empty. *)
Theorem aggregate_entities_labels (ner_raw : list (pystr * pystr * pystr))
  (e : entity) :
  e ∈ aggregate_entities ner_raw ->
  label e = [] \/ exists row, row ∈ ner_raw /\ begins (label e) row.
Proof.
  rewrite aggregate_entities_finish. intros He.
  pose proof (fold_ner_round_labels ner_raw ner_raw ner_init
                (fun _ H => H) (or_introl eq_refl) ltac:(constructor)) as H.
  rewrite Forall_forall in H. now apply H.
Qed.

Lemma startswith_I_bare (tag : pystr) :
  PyStr.startswith s_I_ tag = true -> skipn 2 tag = [] -> tag = s_I_.
Proof.
  destruct tag as [|a [|b rest]].
  - discriminate.
  - cbn [PyStr.startswith s_I_]. rewrite andb_false_r. discriminate.
  - intros H Hr. change (skipn 2 (a :: b :: rest)) with rest in Hr. subst rest.
    cbn [PyStr.startswith s_I_] in H.
    apply andb_true_iff in H as [Ha H].
    apply andb_true_iff in H as [Hb _].
    apply N.eqb_eq in Ha, Hb. now subst.
Qed.

(** X14: a stream in which no tag starts with B- and no tag is the bare
    "I-" yields no entity: an I- tag with no entity open is dropped.  The
    bare tag "I-" is excluded because, with no entity open, it does open
    one, with an empty label and the token after a space. *)
Theorem aggregate_entities_orphans (ner_raw : list (pystr * pystr * pystr)) :
  (Forall (fun row => PyStr.startswith s_B_ (snd row) = false /\
                      snd row ≠ s_I_) ner_raw ->
   aggregate_entities ner_raw = []) /\
  (forall tok p,
     aggregate_entities [(tok, p, s_I_)] =
       [{| text := c_space :: tok; label := [] |}]).
Proof.
  split; [|reflexivity].
  intros H. rewrite aggregate_entities_finish.
  assert (Hi : fold_left ner_round ner_raw ner_init = ner_init);
    [|now rewrite Hi].
  induction H as [|[[tok p] tag] l [HB HI] _ IH]; [reflexivity|].
  cbn [fold_left snd] in *. rewrite ner_round_O; [exact IH | exact HB |].
  destruct (PyStr.startswith s_I_ tag) eqn:Hs; [right | now left].
  intros Hk. apply HI. now apply startswith_I_bare.
Qed.

Lemma aggregate_entities_orphans_witness :
  aggregate_entities
    [(Sample.s_Noi, Sample.s_Np, Sample.s_I_LOC);
     (Sample.s_dep, Sample.s_A, Sample.s_O)] = [].
Proof.
  apply (proj1 (aggregate_entities_orphans
                  [(Sample.s_Noi, Sample.s_Np, Sample.s_I_LOC);
                   (Sample.s_dep, Sample.s_A, Sample.s_O)])).
  repeat constructor; discriminate.
Defined.

Lemma aggregate_entities_text_nonempty_witness :
  text {| text := Sample.s_Ha ++ [32] ++ Sample.s_Noi; label := Sample.s_LOC |}
  ≠ [].
Proof.
  apply (aggregate_entities_text_nonempty
           [(Sample.s_Ha, Sample.s_Np, Sample.s_B_LOC);
            (Sample.s_Noi, Sample.s_Np, Sample.s_I_LOC);
            (Sample.s_dep, Sample.s_A, Sample.s_O)]).
  left.
Defined.

Lemma aggregate_entities_labels_witness :
  Sample.s_LOC = [] \/
  exists row,
    row ∈ [(Sample.s_Ha, Sample.s_Np, Sample.s_B_LOC);
           (Sample.s_Noi, Sample.s_Np, Sample.s_I_LOC);
           (Sample.s_dep, Sample.s_A, Sample.s_O)] /\
    begins Sample.s_LOC row.
Proof.
  apply (aggregate_entities_labels
           [(Sample.s_Ha, Sample.s_Np, Sample.s_B_LOC);
            (Sample.s_Noi, Sample.s_Np, Sample.s_I_LOC);
            (Sample.s_dep, Sample.s_A, Sample.s_O)]
           {| text := Sample.s_Ha ++ [32] ++ Sample.s_Noi;
              label := Sample.s_LOC |}).
  left.
Defined.

(** X15: in the dict of every completed Vietnamese analysis, the entity
    list is exactly what the aggregator yields on the recogniser's rows:
    the relabelling loop of lines 198-200 changes no entity, so that every
    entity has a non-empty text and a label that is empty or the type of a
    B- tag of the rows. *)
Theorem vietnamese_entities (E : Engines) (txt : pystr) (r : dict) :
  blank txt = false ->
  fst (detect_language E txt) = s_vi ->
  perform_nlp_analysis E txt = Some r ->
  exists ner,
    vn_ner E txt = Ok ner /\
    r !! "named_entities" = Some (VEntities (aggregate_entities ner)) /\
    (forall e, e ∈ aggregate_entities ner ->
       text e ≠ [] /\
       (label e = [] \/ exists row, row ∈ ner /\ begins (label e) row)).
Proof.
  intros Hb Hvi Hr.
  destruct (vietnamese_returned E txt r Hb Hvi Hr)
    as (seg & tags & ner & _ & _ & Hn & ->).
  exists ner. split; [assumption|]. split.
  - lookup_dict. now rewrite relabel_entities_vi_id.
  - intros e He. rewrite aggregate_entities_finish in He.
    split.
    + pose proof (fold_ner_round_text_nonempty ner ner_init
                    ltac:(constructor)) as H.
      rewrite Forall_forall in H. now apply H.
    + pose proof (fold_ner_round_labels ner ner ner_init
                    (fun _ H => H) (or_introl eq_refl) ltac:(constructor))
        as H.
      rewrite Forall_forall in H. now apply H.
Qed.

Lemma vietnamese_entities_witness :
  exists ner,
    vn_ner Sample.hanoi Sample.txt_hanoi = Ok ner /\
    Sample.hanoi_dict !! "named_entities" =
      Some (VEntities (aggregate_entities ner)).
Proof.
  destruct (vietnamese_entities Sample.hanoi Sample.txt_hanoi
              Sample.hanoi_dict eq_refl eq_refl sample_hanoi_returns)
    as (ner & Hn & Hl & _).
  exists ner. split; assumption.
Defined.

(** ** The route *)

Section Route.

Context (E : Engines).

(** When [analysis] returns None. *)
Lemma returned_None_cases (txt : pystr) :
  returned (analysis E txt) = None ->
  let lang := fst (detect_language E txt) in
  let r0 := placeholders (snd (detect_language E txt)) in
  (lang ≠ s_en /\ lang ≠ s_vi) \/
  (lang = s_vi /\ VN_NLP_AVAILABLE E = false) \/
  (lang = s_en /\ exists r1 e, english_body E txt r0 = (r1, Raise e)) \/
  (lang = s_vi /\ VN_NLP_AVAILABLE E = true /\
   exists r1 e, vietnamese_body E txt r0 = (r1, Raise e)).
Proof.
  cbv zeta. unfold analysis.
  destruct (detect_language E txt) as [lang r0]. cbn [fst snd].
  unfold PyStr.eqb. case_bool_decide as Hen.
  - destruct (english_body E txt (placeholders r0)) as [r1 [u|e]] eqn:Hb;
      cbn [returned]; [discriminate|].
    intros _. right. right. left. eauto.
  - case_bool_decide as Hvi; [|intros _; left; now split].
    destruct (VN_NLP_AVAILABLE E) eqn:Hv; cbn [negb];
      [|intros _; right; left; now split].
    destruct (vietnamese_body E txt (placeholders r0)) as [r1 [u|e]] eqn:Hb;
      cbn [returned]; [discriminate|].
    intros _. right. right. right. eauto.
Qed.

(** X16: the route fails with an uncaught TypeError exactly when the
    form text is not blank and the analysis takes one of its four failure
    branches: unsupported language, Vietnamese tools unavailable, or an
    exception in the English or in the Vietnamese strategy. *)
Theorem analyze_TypeError_iff (txt : pystr) :
  analyze E txt = TypeError <->
  forallb PyStr.isspace txt = false /\
  let lang := fst (detect_language E txt) in
  let r0 := placeholders (snd (detect_language E txt)) in
  ((lang ≠ s_en /\ lang ≠ s_vi) \/
   (lang = s_vi /\ VN_NLP_AVAILABLE E = false) \/
   (lang = s_en /\ exists r1 e, english_body E txt r0 = (r1, Raise e)) \/
   (lang = s_vi /\ VN_NLP_AVAILABLE E = true /\
    exists r1 e, vietnamese_body E txt r0 = (r1, Raise e))).
Proof.
  cbv zeta. unfold analyze. rewrite <- blank_strip.
  unfold perform_nlp_analysis.
  destruct (blank txt) eqn:Hb.
  - split; [discriminate|]. intros [Hs _].
    apply blank_iff in Hb. congruence.
  - assert (Hs : forallb PyStr.isspace txt = false).
    { destruct (forallb PyStr.isspace txt) eqn:Hs; [|reflexivity].
      apply blank_iff in Hs. congruence. }
    destruct (returned (analysis E txt)) as [r|] eqn:Hr.
    + split; [discriminate|]. intros [_ H].
      apply failure_branches in H. congruence.
    + split; [|reflexivity]. intros _. split; [exact Hs|].
      now apply returned_None_cases.
Qed.

(** X17: when the route renders the result page, it renders it with the
    form text and either, for a blank text, the dict that holds only the
    message "Please enter some text for analysis.", or, for any other
    text, the dict of a completed analysis, which has no 'error_details';
    it never renders the dict {'lang': 'unknown'} of line 69. *)
Theorem analyze_renders (txt u : pystr) (d : dict) :
  analyze E txt = Render u d ->
  u = txt /\
  d ≠ {["lang" := VStr s_unknown]} /\
  ((forallb PyStr.isspace txt = true /\
    d = {["error_details" := VStr s_please_enter]}) \/
   (forallb PyStr.isspace txt = false /\
    perform_nlp_analysis E txt = Some d /\
    d !! "error_details" = None /\
    exists wc, d !! "word_count" = Some (VInt wc))).
Proof.
  unfold analyze. rewrite <- blank_strip.
  destruct (blank txt) eqn:Hb.
  - intros [= <- <-]. split; [reflexivity|]. split.
    + intros H. apply (f_equal (fun m : dict => m !! "lang")) in H.
      rewrite lookup_singleton_ne, lookup_singleton_eq in H by discriminate.
      discriminate H.
    + left. split; [now apply blank_iff | reflexivity].
  - assert (Hs : forallb PyStr.isspace txt = false).
    { destruct (forallb PyStr.isspace txt) eqn:Hs; [|reflexivity].
      apply blank_iff in Hs. congruence. }
    destruct (perform_nlp_analysis E txt) as [r|] eqn:Hr; [|discriminate].
    intros [= <- <-]. split; [reflexivity|].
    assert (Hw : exists wc, r !! "word_count" = Some (VInt wc)).
    { destruct (perform_nlp_analysis_returned E txt r Hb Hr)
        as [(_ & doc & toks & sents & words & lems & _ & _ & _ & _ & _ & ->)
           | (_ & _ & seg & tags & ner & _ & _ & _ & ->)];
        eexists; now lookup_dict. }
    split.
    + intros ->. destruct Hw as [wc Hw].
      rewrite lookup_singleton_ne in Hw by discriminate. discriminate Hw.
    + right. split; [exact Hs|]. split; [reflexivity|]. split; [|exact Hw].
      now apply (returned_no_error_details E txt).
Qed.

End Route.

Lemma analyze_TypeError_iff_witness :
  forallb PyStr.isspace Sample.txt_fr = false /\
  analyze Sample.french Sample.txt_fr = TypeError.
Proof.
  split; [reflexivity|].
  apply (analyze_TypeError_iff Sample.french Sample.txt_fr).
  split; [reflexivity|]. left. split; discriminate.
Defined.

Lemma analyze_renders_witness :
  Sample.english_dict !! "error_details" = None.
Proof.
  assert (Ha : analyze Sample.english Sample.txt_en =
               Render Sample.txt_en Sample.english_dict).
  { unfold analyze. rewrite sample_english_returns. reflexivity. }
  destruct (analyze_renders Sample.english Sample.txt_en Sample.txt_en
              Sample.english_dict Ha)
    as (_ & _ & [[Hs _] | (_ & _ & He & _)]);
    [discriminate Hs | exact He].
Defined.
